(** * Job intake and execution helpers of the serverless worker

    A shallow embedding of [runpod/serverless/modules/rp_job.py]:
    [_job_get_url], [get_job], [run_job] and [run_job_generator], followed by
    the properties of the worker's specification that concern them.

    Python integers are [Z], strings are [string], dictionaries with string
    keys are [gmap string _].  Objects a handler can hand back and that
    [run_job] edits in place live in an explicit store, so that the aliasing
    between the handler's mapping and the envelope's [output] is visible.

    The invocation is modelled twice.  First for handlers that read the job
    and leave it as it is: the job is then a value.  Then, in the module
    [Shared], for handlers that also write to the job they are given: the
    job is part of the state, and every later [job["id"]] reads what the
    handler left.  The first model is the second one restricted to handlers
    that leave the job alone ([run_job_agrees],
    [run_job_generator_agrees]). *)

From Stdlib Require Import ZArith String Ascii DecimalString List Lia.
From stdpp Require Import gmap strings list fin_maps.

#[local] Set Warnings "-register-all".
#[local] Open Scope Z_scope.

(* ===================================================================== *)
(** * Python data                                                         *)
(* ===================================================================== *)

(** What [response.json()] decodes a body to, and what a job descriptor is
    made of: immutable trees.  A JSON number decodes to an [int] or to a
    [float]; a float is carried as a decimal mantissa and exponent and is
    never computed with. *)
Inductive json : Type :=
| JNull
| JBool (b : bool)
| JInt (n : Z)
| JFloat (mantissa exponent : Z)
| JStr (s : string)
| JArr (items : list json)
| JObj (fields : gmap string json).

(** [isinstance(jobs, dict)] and [isinstance(jobs, list)] on a decoded body. *)
Definition isinstance_dict (v : json) : bool :=
  match v with JObj _ => true | _ => false end.

Definition isinstance_list (v : json) : bool :=
  match v with JArr _ => true | _ => false end.

(** A job is the dictionary [Dict[str, Any]] that [get_job] returned. *)
Abbreviation job := (gmap string json).

(** ** Exceptions

    The two [except] clauses of the module select by class:
    [asyncio.TimeoutError], [Exception], and whatever derives from
    [BaseException] only ([KeyboardInterrupt], [SystemExit],
    [asyncio.CancelledError]), which no clause of the module names. *)
Inductive exn_class : Type :=
| TimeoutError        (* asyncio.TimeoutError, a subclass of Exception *)
| OtherException      (* any other subclass of Exception *)
| BaseExceptionOnly.  (* a BaseException that is not an Exception *)

Record exn : Type := mk_exn {
  exn_cls : exn_class;
  exn_type : string;      (* qualified name of type(err) *)
  exn_message : string;   (* str(err), taken to return *)
}.

Definition is_TimeoutError (e : exn) : bool :=
  match exn_cls e with TimeoutError => true | _ => false end.

Definition is_Exception (e : exn) : bool :=
  match exn_cls e with BaseExceptionOnly => false | _ => true end.

(** [str(type(err))] *)
Definition str_type (e : exn) : string :=
  "<class '" +:+ exn_type e +:+ "'>".

(** [Exception(msg)] and the [KeyError] of a failed subscript. *)
Definition Exception (msg : string) : exn :=
  mk_exn OtherException "Exception" msg.

Definition KeyError (key : string) : exn :=
  mk_exn OtherException "KeyError" ("'" +:+ key +:+ "'").

(** The result of evaluating a statement or call that may raise. *)
Inductive outcome (A : Type) : Type :=
| Return (a : A)
| Raise (e : exn).
Arguments Return {A} a.
Arguments Raise {A} e.

(* ===================================================================== *)
(** * Strings                                                             *)
(* ===================================================================== *)

(** [str.replace(old, new)]: occurrences of [old] are replaced from left to
    right and do not overlap.  [skip] counts the characters of a matched
    occurrence still to be passed over. *)
Fixpoint replace_from (old new : string) (skip : nat) (s : string) : string :=
  match s with
  | EmptyString => EmptyString
  | String c s' =>
      match skip with
      | S k => replace_from old new k s'
      | O =>
          if String.prefix old s
          then new +:+ replace_from old new (String.length old - 1) s'
          else String c (replace_from old new 0 s')
      end
  end.

(** With an empty [old], Python puts [new] before every character and at
    the end. *)
Fixpoint intersperse_str (new s : string) : string :=
  match s with
  | EmptyString => new
  | String c s' => new +:+ String c (intersperse_str new s')
  end.

Definition str_replace (old new s : string) : string :=
  match old with
  | EmptyString => intersperse_str new s
  | _ => replace_from old new 0 s
  end.

(** [str(n)] and [f"{n}"] for an [int]. *)
Definition str_int (n : Z) : string :=
  NilZero.string_of_int (Z.to_int n).

(** [str(x)] for [x = os.environ.get(..)], which may be [None]. *)
Definition str_optional (x : option string) : string :=
  match x with Some s => s | None => "None" end.


Definition starts_with (p s : string) : Prop :=
  ∃ post, s = p +:+ post.


(* ===================================================================== *)
(** * Collaborators                                                       *)
(* ===================================================================== *)

(** Modelled from the spec: [JobsQueue] of [worker_state], of which the
    module uses [get_job_count] only, "a backlog-size query returning a
    non-negative integer".  The queue is the list of the ids of the jobs in
    progress. *)
Definition JobsQueue : Type := list string.

Definition get_job_count (job_list : JobsQueue) : nat := length job_list.

(** A response of the transport: its status and what awaiting
    [response.json()] gives. *)
Record response : Type := mk_response {
  status : Z;
  response_json : outcome json;
}.

(** [ClientSession]: what [session.get(url)] gives when entered. *)
Definition ClientSession : Type := string → outcome response.

(** ** Values and objects of the handler

    A handler may return any Python value.  [None], booleans, numbers and
    strings are immutable; lists and dictionaries are objects of the
    store, reached through a reference, so an in-place edit is seen by
    every holder of the reference.  These are the values whose truth
    value, comparison and formatting cannot raise; instances of user
    classes are left out. *)
Definition loc : Type := positive.

Inductive pyval : Type :=
| PNone
| PBool (b : bool)
| PInt (n : Z)
| PFloat (mantissa exponent : Z)
| PStr (s : string)
| PRef (l : loc).

Inductive pyobj : Type :=
| OList (items : list pyval)
| ODict (d : gmap string pyval).

Abbreviation heap := (gmap loc pyobj).

(** The result envelope, [run_result]: a dictionary of its own. *)
Abbreviation envelope := (gmap string pyval).

(** [bool(v)], as an [if v:] tests it.  An object that is neither a list
    nor a dictionary has the default truth value. *)
Definition truthy (h : heap) (v : pyval) : bool :=
  match v with
  | PNone => false
  | PBool b => b
  | PInt n => negb (Z.eqb n 0)
  | PFloat m _ => negb (Z.eqb m 0)
  | PStr s => negb (String.eqb s EmptyString)
  | PRef l =>
      match h !! l with
      | Some (OList items) => match items with [] => false | _ => true end
      | Some (ODict d) => negb (bool_decide (size d = 0%nat))
      | None => true
      end
  end.

(** [isinstance(v, dict)], giving the dictionary's place in the store. *)
Definition as_dict (h : heap) (v : pyval) : option loc :=
  match v with
  | PRef l => match h !! l with Some (ODict _) => Some l | _ => None end
  | _ => None
  end.

(** [isinstance(v, bool)] *)
Definition isinstance_bool (v : pyval) : bool :=
  match v with PBool _ => true | _ => false end.

(** [x == {}] for [x = run_result.get("output")]: only an empty dictionary
    equals the empty dictionary. *)
Definition eq_empty_dict (h : heap) (x : option pyval) : bool :=
  match x with
  | Some (PRef l) =>
      match h !! l with
      | Some (ODict d) => bool_decide (size d = 0%nat)
      | _ => false
      end
  | _ => false
  end.

(** The constants and services the module imports. *)
Record Runtime : Type := mk_runtime {
  environ : gmap string string;            (* os.environ *)
  WORKER_ID : string;                      (* worker_state.WORKER_ID *)
  runpod_version : string;                 (* version.__version__ *)
  json_dumps : list (string * string) → string;
      (* json.dumps of a flat record of strings, fields in order *)
  format_exc : exn → string;
      (* traceback.format_exc(): the text for the exception being handled;
         the line of this module it passed through is not told apart *)
  check_return_size : heap → envelope → option exn;
      (* rp_tips.check_return_size: None when it returns, the exception
         when it raises *)
}.

(* ===================================================================== *)
(** * Acquisition                                                         *)
(* ===================================================================== *)

Section Acquisition.
Context (R : Runtime).

(** [JOB_GET_URL = str(os.environ.get("RUNPOD_WEBHOOK_GET_JOB")).replace("$ID", WORKER_ID)] *)
Definition JOB_GET_URL : string :=
  str_replace "$ID" (WORKER_ID R)
    (str_optional (environ R !! "RUNPOD_WEBHOOK_GET_JOB")).

Definition _job_get_url (job_list : JobsQueue) (batch_size : Z) : string :=
  let job_in_progress :=
    match get_job_count job_list with O => "0" | S _ => "1" end in
  let job_take_url :=
    if Z.ltb 1 batch_size
    then str_replace "/job-take/" "/job-take-batch/" JOB_GET_URL
         +:+ "&batch_size=" +:+ str_int batch_size +:+ "&batch_strategy=LMove"
    else JOB_GET_URL in
  job_take_url +:+ "&job_in_progress=" +:+ job_in_progress.

(** The [try] block of [get_job].  [Return (Some r)] is a [return r]
    inside the block, where [r = None] is the bare [return] and
    [r = Some jobs] returns a list; [Return None] is control reaching the
    end of the block. *)
Definition get_job_try (job_list : JobsQueue) (session : ClientSession)
    (num_jobs : Z) : outcome (option (option (list json))) :=
  match session (_job_get_url job_list num_jobs) with
  | Raise e => Raise e
  | Return response =>
      if Z.eqb (status response) 204 then Return (Some None)
      else if Z.eqb (status response) 400 then Return (Some None)
      else if negb (Z.eqb (status response) 200) then Return (Some None)
      else
        match response_json response with
        | Raise e => Raise e
        | Return jobs =>
            match jobs with
            | JObj fields =>
                if bool_decide (fields !! "id" = None)
                   || bool_decide (fields !! "input" = None)
                then Raise (Exception "Job has missing field(s): id or input.")
                else Return (Some (Some [jobs]))
            | JArr items => Return (Some (Some items))
            | _ => Return None
            end
        end
  end.

(** [get_job]: [Return None] is Python's [None], [Return (Some jobs)] a
    list.  Both handlers only log and fall through to [return []]; an
    exception neither of them names leaves the function. *)
Definition get_job (job_list : JobsQueue) (session : ClientSession)
    (num_jobs : Z) : outcome (option (list json)) :=
  match get_job_try job_list session num_jobs with
  | Return (Some r) => Return r
  | Return None => Return (Some [])
  | Raise e =>
      if is_TimeoutError e then Return (Some [])
      else if is_Exception e then Return (Some [])
      else Raise e
  end.

End Acquisition.

(* ===================================================================== *)
(** * Invocation, terminal form                                           *)
(* ===================================================================== *)

(** Statements that read and edit the store and may raise. *)
Definition M (A : Type) : Type := heap → outcome A * heap.

Definition ret {A} (a : A) : M A := λ h, (Return a, h).

Definition raise {A} (e : exn) : M A := λ h, (Raise e, h).

Definition bind {A B} (m : M A) (k : A → M B) : M B :=
  λ h, match m h with
       | (Return a, h') => k a h'
       | (Raise e, h') => (Raise e, h')
       end.

Declare Scope py_scope.
Delimit Scope py_scope with py.
Notation "'let*' x ':=' m 'in' k" := (bind m (λ x, k))
  (at level 10, x as pattern, m at level 200, k at level 200, only parsing)
  : py_scope.

(** [try: body except Exception as err: handler err] *)
Definition try_except {A} (body : M A) (handler : exn → M A) : M A :=
  λ h, match body h with
       | (Raise e, h') =>
           if is_Exception e then handler e h' else (Raise e, h')
       | r => r
       end.

(** [try: body finally: fin]; an exception of [fin] replaces the result. *)
Definition try_finally {A} (body : M A) (fin : M unit) : M A :=
  λ h, match body h with
       | (r, h') =>
           match fin h' with
           | (Return _, h'') => (r, h'')
           | (Raise e, h'') => (Raise e, h'')
           end
       end.

(** What calling the handler gives: a value, or an awaitable that
    [run_job] awaits.  In this part the handler reads the job and writes
    to the store only; a handler that also writes to the job it is given
    is the subject of the module [Shared] below. *)
Inductive handler_return : Type :=
| Plain (v : pyval)
| Awaitable (coroutine : M pyval).

Definition Handler : Type := job → M handler_return.

(** A logger call [log.level(message, job["id"])]: the logger is a
    collaborator, the subscript is evaluated here. *)
Definition log_job_id (j : job) : M unit :=
  match j !! "id" with
  | Some _ => ret tt
  | None => raise (KeyError "id")
  end.

(** [d.pop(key, None)] on the dictionary at [l]. *)
Definition dict_pop (l : loc) (key : string) : M pyval :=
  λ h, match h !! l with
       | Some (ODict d) =>
           (Return (default PNone (d !! key)), <[l := ODict (delete key d)]> h)
       | _ => (Raise (mk_exn OtherException "AttributeError" "pop"), h)
       end.

(** Lines 123 to 140: from the handler's value to [run_result]. *)
Definition normalize (job_output : pyval) : M envelope :=
  (let* is_dict := (λ h, (Return (as_dict h job_output), h)) in
   let* run_result :=
     match is_dict with
     | Some l =>
         let* error_msg := dict_pop l "error" in
         let* refresh_worker := dict_pop l "refresh_worker" in
         λ h,
           let run_result : envelope := {[ "output" := job_output ]} in
           let run_result :=
             if truthy h error_msg
             then <[ "error" := error_msg ]> run_result else run_result in
           let run_result :=
             if truthy h refresh_worker
             then <[ "stopPod" := PBool true ]> run_result else run_result in
           (Return run_result, h)
     | None =>
         if isinstance_bool job_output
         then ret ({[ "output" := job_output ]} : envelope)
         else ret ({[ "output" := job_output ]} : envelope)
     end in
   λ h,
     if eq_empty_dict h (run_result !! "output")
     then (Return (delete "output" run_result), h)
     else (Return run_result, h))%py.

Section Invocation.
Context (R : Runtime).

(** [os.environ.get(name, "unknown")] *)
Definition environ_get (name : string) : string :=
  default "unknown" (environ R !! name).

Definition error_info (err : exn) : list (string * string) :=
  [ ("error_type", str_type err);
    ("error_message", exn_message err);
    ("error_traceback", format_exc R err);
    ("hostname", environ_get "RUNPOD_POD_HOSTNAME");
    ("worker_id", environ_get "RUNPOD_POD_ID");
    ("runpod_version", runpod_version R) ].

(** [check_return_size(run_result)] as a statement. *)
Definition check_size (run_result : envelope) : M unit :=
  λ h, match check_return_size R h run_result with
       | None => (Return tt, h)
       | Some e => (Raise e, h)
       end.

(** Lines 114 to 119: call the handler and await what it returned when
    that is awaitable. *)
Definition resolve (handler : Handler) (j : job) : M pyval :=
  (let* handler_return := handler j in
   match handler_return with
   | Awaitable coroutine => coroutine
   | Plain v => ret v
   end)%py.

(** The [try] block of [run_job], lines 114 to 142. *)
Definition run_job_try (handler : Handler) (j : job) : M envelope :=
  (let* job_output := resolve handler j in
   let* _ := log_job_id j in
   let* run_result := normalize job_output in
   let* _ := check_size run_result in
   ret run_result)%py.

(** The [except Exception as err] block, lines 145 to 156. *)
Definition run_job_except (j : job) (err : exn) : M envelope :=
  (let* _ := log_job_id j in
   ret ({[ "error" := PStr (json_dumps R (error_info err)) ]} : envelope))%py.

Definition run_job (handler : Handler) (j : job) : M envelope :=
  (let* _ := log_job_id j in
   try_finally
     (try_except (run_job_try handler j) (run_job_except j))
     (log_job_id j))%py.

End Invocation.

(* ===================================================================== *)
(** * Invocation, streaming form                                          *)
(* ===================================================================== *)

(** One [next()] or [__anext__()] of the handler's generator, whose
    suspended states are the elements of [G]. *)
Inductive gen_step (G : Type) : Type :=
| GYield (v : pyval) (g : G)     (* an item, and the generator suspended after it *)
| GStop                          (* the generator returned *)
| GRaise (e : exn).              (* the generator raised *)
Arguments GYield {G} v g.
Arguments GStop {G}.
Arguments GRaise {G} e.

(** A streaming handler: what [inspect.isasyncgenfunction] says of it, the
    call that creates the generator, and the generator's steps.  In this
    part the generator leaves the job as it is; one that writes to it is
    the subject of the module [Shared] below. *)
Record GenHandler (G : Type) : Type := mk_gen_handler {
  isasyncgenfunction : bool;
  call : job → outcome G;
  next : G → gen_step G;
}.
Arguments isasyncgenfunction {G} _.
Arguments call {G} _ _.
Arguments next {G} _ _.

(** [run_job_generator] is itself a generator.  Its suspended states: *)
Inductive rjg_state (G : Type) : Type :=
| Created                (* not started *)
| AtOutput (g : G)       (* at a [yield {"output": ..}] of a loop *)
| AtError                (* at the [yield {"error": ..}] *)
| Closed.                (* returned, or left by an exception *)
Arguments Created {G}.
Arguments AtOutput {G} g.
Arguments AtError {G}.
Arguments Closed {G}.

(** and what one [__anext__()] of it gives. *)
Inductive rjg_step : Type :=
| Emit (partial : envelope)
| Stop                           (* StopAsyncIteration *)
| Escape (e : exn).              (* an exception leaves the generator *)

Section Streaming.
Context (R : Runtime) {G : Type}.

(** A logger call with [job["id"]] anywhere in the body; a failed
    subscript is not handled anywhere ([except] and [finally] evaluate
    the same subscript) and leaves the generator. *)
Definition logged (j : job) (k : rjg_step * rjg_state G)
    : rjg_step * rjg_state G :=
  match j !! "id" with
  | Some _ => k
  | None => (Escape (KeyError "id"), Closed)
  end.

(** The [finally] block, then the end of the generator. *)
Definition rjg_finally (j : job) (r : rjg_step) : rjg_step * rjg_state G :=
  logged j (r, Closed).

(** An exception raised inside the [try] block. *)
Definition rjg_except (j : job) (err : exn) : rjg_step * rjg_state G :=
  if is_Exception err
  then logged j
         (Emit {[ "error" :=
                    PStr ("handler: " +:+ exn_message err +:+ " "
                          +:+ String (ascii_of_nat 10) "traceback: "
                          +:+ format_exc R err) ]},
          AtError)
  else rjg_finally j (Escape err).

(** One turn of either loop: [async for] when the handler is an
    asynchronous generator function, [for] otherwise. *)
Definition rjg_loop (handler : GenHandler G) (j : job) (job_output : G)
    : rjg_step * rjg_state G :=
  match next handler job_output with
  | GYield output_partial g' =>
      if isasyncgenfunction handler
      then logged j (Emit {[ "output" := output_partial ]}, AtOutput g')
      else logged j (Emit {[ "output" := output_partial ]}, AtOutput g')
  | GStop => rjg_finally j Stop
  | GRaise err => rjg_except j err
  end.

(** [__anext__()] of [run_job_generator(handler, job)] in state [s]. *)
Definition run_job_generator (handler : GenHandler G) (j : job)
    (s : rjg_state G) : rjg_step * rjg_state G :=
  match s with
  | Created =>
      logged j
        match call handler j with
        | Raise err => rjg_except j err
        | Return job_output => rjg_loop handler j job_output
        end
  | AtOutput g => rjg_loop handler j g
  | AtError => rjg_finally j Stop
  | Closed => (Stop, Closed)
  end.

(** What a consumer that iterates at most [fuel] times receives; [None]
    when the generator has not ended within [fuel] steps. *)
Fixpoint consume (handler : GenHandler G) (j : job) (fuel : nat)
    (s : rjg_state G) : list envelope * option (option exn) :=
  match fuel with
  | O => ([], None)
  | S fuel' =>
      match run_job_generator handler j s with
      | (Emit partial, s') =>
          let '(items, ending) := consume handler j fuel' s' in
          (partial :: items, ending)
      | (Stop, _) => ([], Some None)
      | (Escape e, _) => ([], Some (Some e))
      end
  end.

End Streaming.


(* ===================================================================== *)
(** * Handlers that write to the job                                      *)
(* ===================================================================== *)

(** The handler is given the job dictionary itself, not a copy: what it
    removes from it or adds to it is what the later [job["id"]] subscripts
    of [run_job] and [run_job_generator] find.  In this module the job is
    part of the state, next to the store, and every logger call reads it
    where it stands.  [run_job] and [run_job_generator] above are the case
    of a handler that leaves the job as it got it
    (see [run_job_agrees]). *)
Module Shared.

(** An object of a class of its own (an array of a numeric library, say):
    what [bool(x)] and [bool(x == {})] give for it, each of which may
    raise.  Formatting such an object for the log is taken not to raise. *)
Record instance : Type := mk_instance {
  inst_bool : outcome bool;
  inst_eq_empty_dict : outcome bool;
}.

Record world : Type := mk_world {
  the_job : job;                   (* the job dictionary, as last written *)
  objects : heap;                  (* the lists and the dictionaries *)
  instances : gmap loc instance;   (* the objects of other classes *)
}.

(** The job [j] and the store [h], with no object of another class. *)
Definition plain_world (j : job) (h : heap) : world := mk_world j h ∅.

Definition has_id (w : world) : Prop := is_Some (the_job w !! "id").

Definition M (A : Type) : Type := world → outcome A * world.

Definition ret {A} (a : A) : M A := λ w, (Return a, w).

Definition raise {A} (e : exn) : M A := λ w, (Raise e, w).

Definition bind {A B} (m : M A) (k : A → M B) : M B :=
  λ w, match m w with
       | (Return a, w') => k a w'
       | (Raise e, w') => (Raise e, w')
       end.

Declare Scope shared_scope.
Delimit Scope shared_scope with shared.
Notation "'let*' x ':=' m 'in' k" := (bind m (λ x, k))
  (at level 10, x as pattern, m at level 200, k at level 200, only parsing)
  : shared_scope.

(** A statement that works on the store alone. *)
Definition on_store {A} (m : heap → outcome A * heap) : M A :=
  λ w, let '(r, h') := m (objects w) in
       (r, mk_world (the_job w) h' (instances w)).

(** The object of another class that [v] refers to, if it is one. *)
Definition as_instance (w : world) (v : pyval) : option instance :=
  match v with
  | PRef l =>
      match objects w !! l with
      | Some _ => None
      | None => instances w !! l
      end
  | _ => None
  end.

(** [bool(v)], as an [if v:] tests it. *)
Definition truth (v : pyval) : M bool :=
  λ w, match as_instance w v with
       | Some i => (inst_bool i, w)
       | None => (Return (truthy (objects w) v), w)
       end.

(** [bool(x == {})] for [x = run_result.get("output")]. *)
Definition eq_empty (x : option pyval) : M bool :=
  λ w, match x with
       | Some v =>
           match as_instance w v with
           | Some i => (inst_eq_empty_dict i, w)
           | None => (Return (eq_empty_dict (objects w) x), w)
           end
       | None => (Return false, w)
       end.

(** Lines 123 to 140, with the truth tests and the comparison that can
    raise. *)
Definition normalize (job_output : pyval) : M envelope :=
  (let* is_dict := (λ w, (Return (as_dict (objects w) job_output), w)) in
   let* run_result :=
     match is_dict with
     | Some l =>
         let* error_msg := on_store (dict_pop l "error") in
         let* refresh_worker := on_store (dict_pop l "refresh_worker") in
         let run_result : envelope := {[ "output" := job_output ]} in
         let* error_is_true := truth error_msg in
         let run_result :=
           if error_is_true
           then <[ "error" := error_msg ]> run_result else run_result in
         let* refresh_is_true := truth refresh_worker in
         let run_result :=
           if refresh_is_true
           then <[ "stopPod" := PBool true ]> run_result else run_result in
         ret run_result
     | None =>
         if isinstance_bool job_output
         then ret ({[ "output" := job_output ]} : envelope)
         else ret ({[ "output" := job_output ]} : envelope)
     end in
   let* output_is_empty := eq_empty (run_result !! "output") in
   ret (if output_is_empty then delete "output" run_result else run_result)
  )%shared.

(** [try: body except Exception as err: handler err] *)
Definition try_except {A} (body : M A) (handler : exn → M A) : M A :=
  λ w, match body w with
       | (Raise e, w') =>
           if is_Exception e then handler e w' else (Raise e, w')
       | r => r
       end.

(** [try: body finally: fin]; an exception of [fin] replaces the result. *)
Definition try_finally {A} (body : M A) (fin : M unit) : M A :=
  λ w, match body w with
       | (r, w') =>
           match fin w' with
           | (Return _, w'') => (r, w'')
           | (Raise e, w'') => (Raise e, w'')
           end
       end.

Inductive handler_return : Type :=
| Plain (v : pyval)
| Awaitable (coroutine : M pyval).

(** [handler(job)]: the job is the one of the state. *)
Definition Handler : Type := M handler_return.

(** A logger call [log.level(message, job["id"])]. *)
Definition log_job_id : M unit :=
  λ w, match the_job w !! "id" with
       | Some _ => (Return tt, w)
       | None => (Raise (KeyError "id"), w)
       end.

(** Lines 114 to 119. *)
Definition resolve (handler : Handler) : M pyval :=
  (let* handler_return := handler in
   match handler_return with
   | Awaitable coroutine => coroutine
   | Plain v => ret v
   end)%shared.

(** The [try] block of [run_job], lines 114 to 142. *)
Definition run_job_try (R : Runtime) (handler : Handler) : M envelope :=
  (let* job_output := resolve handler in
   let* _ := log_job_id in
   let* run_result := normalize job_output in
   let* _ := on_store (check_size R run_result) in
   ret run_result)%shared.

(** The [except Exception as err] block, lines 145 to 156. *)
Definition run_job_except (R : Runtime) (err : exn) : M envelope :=
  (let* _ := log_job_id in
   ret ({[ "error" := PStr (json_dumps R (error_info R err)) ]} : envelope))%shared.

Definition run_job (R : Runtime) (handler : Handler) : M envelope :=
  (let* _ := log_job_id in
   try_finally
     (try_except (run_job_try R handler) (run_job_except R))
     log_job_id)%shared.

(** A streaming handler: the call that creates the generator and the
    generator's steps read and write the state too. *)
Record GenHandler (G : Type) : Type := mk_gen_handler {
  isasyncgenfunction : bool;
  call : M G;
  next : G → world → gen_step G * world;
}.
Arguments isasyncgenfunction {G} _.
Arguments call {G} _ _.
Arguments next {G} _ _ _.

(** What one [__anext__()] gives: the step, the state the generator is
    left in, and the state of the job and the store. *)
Definition rjg_result (G : Type) : Type := (rjg_step * rjg_state G) * world.

(** A logger call with [job["id"]]; a failed subscript is handled nowhere
    ([except] and [finally] evaluate the same subscript of the same job)
    and leaves the generator. *)
Definition logged {G} (w : world) (k : rjg_result G) : rjg_result G :=
  match the_job w !! "id" with
  | Some _ => k
  | None => ((Escape (KeyError "id"), Closed), w)
  end.

Definition rjg_finally {G} (w : world) (r : rjg_step) : rjg_result G :=
  logged w ((r, Closed), w).

Definition rjg_except {G} (R : Runtime) (w : world) (err : exn)
    : rjg_result G :=
  if is_Exception err
  then logged w
         ((Emit {[ "error" :=
                     PStr ("handler: " +:+ exn_message err +:+ " "
                           +:+ String (ascii_of_nat 10) "traceback: "
                           +:+ format_exc R err) ]},
           AtError), w)
  else rjg_finally w (Escape err).

Definition rjg_loop {G} (R : Runtime) (handler : GenHandler G)
    (job_output : G) (w : world) : rjg_result G :=
  match next handler job_output w with
  | (GYield output_partial g', w') =>
      if isasyncgenfunction handler
      then logged w' ((Emit {[ "output" := output_partial ]}, AtOutput g'), w')
      else logged w' ((Emit {[ "output" := output_partial ]}, AtOutput g'), w')
  | (GStop, w') => rjg_finally w' Stop
  | (GRaise err, w') => rjg_except R w' err
  end.

(** [__anext__()] of [run_job_generator(handler, job)] in state [s], with
    the job and the store as [w] has them. *)
Definition run_job_generator {G} (R : Runtime) (handler : GenHandler G)
    (s : rjg_state G) (w : world) : rjg_result G :=
  match s with
  | Created =>
      logged w
        match call handler w with
        | (Raise err, w') => rjg_except R w' err
        | (Return job_output, w') => rjg_loop R handler job_output w'
        end
  | AtOutput g => rjg_loop R handler g w
  | AtError => rjg_finally w Stop
  | Closed => ((Stop, Closed), w)
  end.

(** What a consumer receives that iterates at most [fuel] times and leaves
    the job and the store alone between two steps; [None] when the
    generator has not ended within [fuel] steps. *)
Fixpoint consume {G} (R : Runtime) (handler : GenHandler G) (fuel : nat)
    (s : rjg_state G) (w : world) : list envelope * option (option exn) :=
  match fuel with
  | O => ([], None)
  | S fuel' =>
      match run_job_generator R handler s w with
      | ((Emit partial, s'), w') =>
          let '(items, ending) := consume R handler fuel' s' w' in
          (partial :: items, ending)
      | ((Stop, _), _) => ([], Some None)
      | ((Escape e, _), _) => ([], Some (Some e))
      end
  end.

(** How a generator ends. *)
Inductive gen_end : Type :=
| Returns
| Raises (e : exn).

(** From the state [g] and with the job and the store as [w] has them, the
    generator yields [items] in this order and ends as [ending] says,
    leaving [w']; the job has its [id] at every logger call on the way. *)
Inductive produces {G : Type} (handler : GenHandler G)
  : G → world → list pyval → gen_end → world → Prop :=
| produces_return g w w' :
    next handler g w = (GStop, w') →
    has_id w' →
    produces handler g w [] Returns w'
| produces_raise g w e w' :
    next handler g w = (GRaise e, w') →
    has_id w' →
    produces handler g w [] (Raises e) w'
| produces_item g w v g' w' items ending w'' :
    next handler g w = (GYield v g', w') →
    has_id w' →
    produces handler g' w' items ending w'' →
    produces handler g w (v :: items) ending w''.

(** A [def] handler and an [async def] handler with the same body.  What
    the body returns is a value of [pyval], which holds no awaitable: a
    [def] handler that returns a coroutine is [Awaitable] itself. *)
Definition sync_handler (body : M pyval) : Handler :=
  (let* v := body in ret (Plain v))%shared.

Definition async_handler (body : M pyval) : Handler :=
  ret (Awaitable body).

End Shared.

(** A handler of the first part, seen as one that leaves the job alone. *)
Definition lift_coroutine (j : job) (coroutine : M pyval) : Shared.M pyval :=
  λ w, let '(r, h') := coroutine (Shared.objects w) in
       (r, Shared.mk_world j h' (Shared.instances w)).

Definition lift_handler (handler : Handler) : Shared.Handler :=
  λ w,
    match handler (Shared.the_job w) (Shared.objects w) with
    | (Return (Plain v), h') =>
        (Return (Shared.Plain v),
         Shared.mk_world (Shared.the_job w) h' (Shared.instances w))
    | (Return (Awaitable coroutine), h') =>
        (Return (Shared.Awaitable (lift_coroutine (Shared.the_job w) coroutine)),
         Shared.mk_world (Shared.the_job w) h' (Shared.instances w))
    | (Raise e, h') =>
        (Raise e, Shared.mk_world (Shared.the_job w) h' (Shared.instances w))
    end.

(** A streaming handler of the first part, seen as one that leaves the
    job alone. *)
Definition lift_gen_handler {G} (handler : GenHandler G)
    : Shared.GenHandler G :=
  Shared.mk_gen_handler G (isasyncgenfunction handler)
    (λ w, (call handler (Shared.the_job w), w))
    (λ g w, (next handler g, w)).

(* ===================================================================== *)
(** * Auxiliary definitions for the statements                            *)
(* ===================================================================== *)

(** A mapping without the two keys [run_job] pops from it. *)
Definition popped (d : gmap string pyval) : gmap string pyval :=
  delete "refresh_worker" (delete "error" d).

(** The size check lets the envelope of the value [v] through. *)
Definition size_check_passes (R : Runtime) (h : heap) (v : pyval) : Prop :=
  ∀ env h', normalize v h = (Return env, h') → check_return_size R h' env = None.

(** The partials of the streaming form. *)
Definition output_partial (v : pyval) : envelope := {[ "output" := v ]}.

Definition error_partial (R : Runtime) (err : exn) : envelope :=
  {[ "error" :=
       PStr ("handler: " +:+ exn_message err +:+ " "
             +:+ String "010"%char "traceback: " +:+ format_exc R err) ]}.

(** Boolean substring test, [sub in s]. *)
Fixpoint containsb (sub s : string) : bool :=
  String.prefix sub s
  || match s with
     | EmptyString => false
     | String _ s' => containsb sub s'
     end.

(** ** Sample inputs *)

(** A serializer for the sample runtime: the record's fields in order, with
    neither quotes nor escaping. *)
Fixpoint render_fields (fields : list (string * string)) : string :=
  match fields with
  | [] => EmptyString
  | [(k, v)] => k +:+ ": " +:+ v
  | (k, v) :: rest => k +:+ ": " +:+ v +:+ ", " +:+ render_fields rest
  end.

Definition sample_runtime : Runtime :=
  mk_runtime
    {[ "RUNPOD_WEBHOOK_GET_JOB" :=
         "https://api.runpod.ai/v2/ep/job-take/$ID?gpu=A100";
       "RUNPOD_POD_ID" := "pod-1" ]}
    "worker-1" "1.7.0"
    (λ fields, "{" +:+ render_fields fields +:+ "}")
    (λ e, "Traceback (most recent call last): " +:+ exn_type e)
    (λ _ _, None).

Definition sample_job : job := {[ "id" := JStr "a"; "input" := JObj ∅ ]}.

Definition respond (st : Z) (body : json) : ClientSession :=
  λ _, Return (mk_response st (Return body)).

Definition timing_out : ClientSession :=
  λ _, Raise (mk_exn TimeoutError "TimeoutError" EmptyString).

Definition ValueError (msg : string) : exn :=
  mk_exn OtherException "ValueError" msg.

Definition KeyboardInterrupt : exn :=
  mk_exn BaseExceptionOnly "KeyboardInterrupt" EmptyString.

(** The sample runtime with a size check that rejects every envelope. *)
Definition rejecting_runtime : Runtime :=
  mk_runtime (environ sample_runtime) (WORKER_ID sample_runtime)
    (runpod_version sample_runtime) (json_dumps sample_runtime)
    (format_exc sample_runtime)
    (λ _ _, Some (ValueError "too large")).

(** The sample runtime without [RUNPOD_WEBHOOK_GET_JOB]. *)
Definition unconfigured_runtime : Runtime :=
  mk_runtime ∅ (WORKER_ID sample_runtime)
    (runpod_version sample_runtime) (json_dumps sample_runtime)
    (format_exc sample_runtime) (check_return_size sample_runtime).

(** A handler that returns the object at [l], an [async def] handler whose
    coroutine returns it, and a handler that raises. *)
Definition returning (l : loc) : Handler := λ _, ret (Plain (PRef l)).

Definition returning_async (l : loc) : Handler :=
  λ _, ret (Awaitable (ret (PRef l))).

Definition raising (e : exn) : Handler := λ _, raise e.

(** A streaming handler, a plain generator function, whose generator
    yields 1, then 2, and then raises [e]; the generator's state is the
    number of items it has produced. *)
Definition yields_1_2_then_raises (e : exn) : GenHandler nat :=
  mk_gen_handler nat false
    (λ _, Return 0%nat)
    (λ produced,
       match produced with
       | 0%nat => GYield (PInt 1) 1%nat
       | 1%nat => GYield (PInt 2) 2%nat
       | _ => GRaise e
       end).

(** A streaming handler whose generator yields the items of a list and
    returns; its state is the list of the items still to come. *)
Definition yielding_all : GenHandler (list pyval) :=
  mk_gen_handler (list pyval) true
    (λ j, Return (match j !! "input" with
                  | Some (JArr items) =>
                      map (λ x, match x with JInt n => PInt n | _ => PNone end)
                          items
                  | _ => []
                  end))
    (λ todo, match todo with [] => GStop | v :: rest => GYield v rest end).

(** An object like an array of several elements: its truth value is
    refused, and so is the truth value of its comparison with [{}]. *)
Definition ambiguous : Shared.instance :=
  Shared.mk_instance (Raise (ValueError "The truth value is ambiguous"))
                     (Raise (ValueError "The truth value is ambiguous")).

(** A handler that does [del job["id"]] and then goes on as [after]. *)
Definition forgetting_id (after : Shared.Handler) : Shared.Handler :=
  λ w, after (Shared.mk_world (delete "id" (Shared.the_job w))
                              (Shared.objects w) (Shared.instances w)).

(** A streaming handler whose generator yields the items of [items] and
    then does what [last] says; its state is the list of the items still
    to come. *)
Definition scripted (items : list pyval)
    (last : Shared.world → gen_step (list pyval) * Shared.world)
    : Shared.GenHandler (list pyval) :=
  Shared.mk_gen_handler (list pyval) false
    (Shared.ret items)
    (λ todo w, match todo with
               | v :: rest => (GYield v rest, w)
               | [] => last w
               end).

(** A generator's last step: [job.pop("id")] and then [raise e]. *)
Definition pop_id_and_raise (e : exn)
    : Shared.world → gen_step (list pyval) * Shared.world :=
  λ w, (GRaise e, Shared.mk_world (delete "id" (Shared.the_job w))
                                  (Shared.objects w) (Shared.instances w)).

(** Stores holding one mapping, at location 1. *)
Definition store_of (d : gmap string pyval) : heap := {[ 1%positive := ODict d ]}.

(* ===================================================================== *)
(** * Properties                                                          *)
(* ===================================================================== *)

Lemma popped_lookup d k :
  popped d !! k =
    if bool_decide (k = "error" ∨ k = "refresh_worker") then None else d !! k.
Proof.
  unfold popped. case_bool_decide as Hk.
  - destruct Hk as [-> | ->].
    + rewrite lookup_delete_ne by done. apply lookup_delete_eq.
    + apply lookup_delete_eq.
  - rewrite !lookup_delete_ne by (intros <-; apply Hk; auto). done.
Qed.

Lemma dict_pop_eq h l d key :
  h !! l = Some (ODict d) →
  dict_pop l key h =
    (Return (default PNone (d !! key)), <[l := ODict (delete key d)]> h).
Proof. intros Hl. unfold dict_pop. by rewrite Hl. Qed.

(** [normalize] on a mapping: the store afterwards and every field of the
    envelope. *)
Lemma normalize_dict h l d :
  h !! l = Some (ODict d) →
  let h' := <[l := ODict (popped d)]> h in
  ∃ env : envelope,
    normalize (PRef l) h = (Return env, h') ∧
    env !! "output" =
      (if bool_decide (size (popped d) = 0%nat) then None else Some (PRef l)) ∧
    env !! "error" =
      (if truthy h' (default PNone (d !! "error"))
       then Some (default PNone (d !! "error")) else None) ∧
    env !! "stopPod" =
      (if truthy h' (default PNone (d !! "refresh_worker"))
       then Some (PBool true) else None) ∧
    (∀ k, k ≠ "output" → k ≠ "error" → k ≠ "stopPod" → env !! k = None).
Proof.
  intros Hl h'.
  assert (Hpop2 : dict_pop l "refresh_worker" (<[l := ODict (delete "error" d)]> h)
                  = (Return (default PNone (d !! "refresh_worker")), h')).
  { erewrite dict_pop_eq by apply lookup_insert_eq.
    rewrite lookup_delete_ne by done. by rewrite insert_insert_eq. }
  unfold normalize, bind. cbn [as_dict]. rewrite Hl.
  rewrite (dict_pop_eq _ _ _ _ Hl), Hpop2.
  set (e1 := default PNone (d !! "error")).
  set (r1 := default PNone (d !! "refresh_worker")).
  set (rr := (if truthy h' r1 then _ else _) : envelope).
  assert (Hout : rr !! "output" = Some (PRef l)).
  { subst rr. destruct (truthy h' r1), (truthy h' e1); by simplify_map_eq. }
  assert (Herr : rr !! "error" = if truthy h' e1 then Some e1 else None).
  { subst rr. destruct (truthy h' r1), (truthy h' e1); by simplify_map_eq. }
  assert (Hstop : rr !! "stopPod" = if truthy h' r1 then Some (PBool true) else None).
  { subst rr. destruct (truthy h' r1), (truthy h' e1); by simplify_map_eq. }
  assert (Hrest : ∀ k, k ≠ "output" → k ≠ "error" → k ≠ "stopPod" → rr !! k = None).
  { intros k ???. subst rr.
    destruct (truthy h' r1), (truthy h' e1); by simplify_map_eq. }
  rewrite Hout. unfold eq_empty_dict. subst h'. rewrite lookup_insert_eq.
  case_bool_decide.
  - eexists. split; [reflexivity|].
    rewrite lookup_delete_eq, !lookup_delete_ne by done.
    repeat split; try done. intros k ???. rewrite lookup_delete_ne by done. auto.
  - eexists. split; [reflexivity|]. repeat split; done.
Qed.

(** ** Strings *)

Lemma str_app_nil (b : string) : EmptyString +:+ b = b.
Proof. reflexivity. Qed.

Lemma str_app_cons (x : ascii) (a b : string) :
  String x a +:+ b = String x (a +:+ b).
Proof. reflexivity. Qed.

Lemma str_app_assoc (a b c : string) : (a +:+ b) +:+ c = a +:+ (b +:+ c).
Proof.
  induction a as [|x a IH]; rewrite ?str_app_nil, ?str_app_cons;
    [done | by f_equal].
Qed.

Lemma prefix_app (sub post : string) : String.prefix sub (sub +:+ post) = true.
Proof.
  induction sub as [|x sub IH]; rewrite ?str_app_nil, ?str_app_cons; cbn;
    [by destruct post|].
  destruct (ascii_dec x x); [done | congruence].
Qed.





(** ** The poll URL *)

Lemma job_get_url_single R job_list batch_size :
  batch_size ≤ 1 →
  _job_get_url R job_list batch_size =
    JOB_GET_URL R +:+ "&job_in_progress="
    +:+ match get_job_count job_list with O => "0" | S _ => "1" end.
Proof.
  intros Hle. unfold _job_get_url.
  destruct (Z.ltb_spec 1 batch_size); [lia | done].
Qed.

Lemma job_get_url_batch R job_list batch_size :
  1 < batch_size →
  _job_get_url R job_list batch_size =
    str_replace "/job-take/" "/job-take-batch/" (JOB_GET_URL R)
    +:+ "&batch_size=" +:+ str_int batch_size +:+ "&batch_strategy=LMove"
    +:+ "&job_in_progress="
    +:+ match get_job_count job_list with O => "0" | S _ => "1" end.
Proof.
  intros Hlt. unfold _job_get_url.
  destruct (Z.ltb_spec 1 batch_size); [|lia].
  by rewrite !str_app_assoc.
Qed.

(** ** Acquisition *)

Lemma get_job_try_non_200 R job_list session num_jobs resp :
  session (_job_get_url R job_list num_jobs) = Return resp →
  status resp ≠ 200 →
  get_job_try R job_list session num_jobs = Return (Some None).
Proof.
  intros Hs Hst. unfold get_job_try. rewrite Hs.
  destruct (Z.eqb_spec (status resp) 204); [done|].
  destruct (Z.eqb_spec (status resp) 400); [done|].
  destruct (Z.eqb_spec (status resp) 200); [done|done].
Qed.

Lemma get_job_try_200 R job_list session num_jobs resp :
  session (_job_get_url R job_list num_jobs) = Return resp →
  status resp = 200 →
  get_job_try R job_list session num_jobs =
    match response_json resp with
    | Raise e => Raise e
    | Return jobs =>
        match jobs with
        | JObj fields =>
            if bool_decide (fields !! "id" = None)
               || bool_decide (fields !! "input" = None)
            then Raise (Exception "Job has missing field(s): id or input.")
            else Return (Some (Some [jobs]))
        | JArr items => Return (Some (Some items))
        | _ => Return None
        end
    end.
Proof. intros Hs Hst. unfold get_job_try. by rewrite Hs, Hst. Qed.

Lemma get_job_catches R job_list session num_jobs e :
  get_job_try R job_list session num_jobs = Raise e →
  is_Exception e = true →
  get_job R job_list session num_jobs = Return (Some []).
Proof.
  intros Htry He. unfold get_job. rewrite Htry, He.
  by destruct (is_TimeoutError e).
Qed.

(** An exception that is not an [Exception] passes both handlers. *)
Lemma get_job_lets_through R job_list session num_jobs e :
  session (_job_get_url R job_list num_jobs) = Raise e →
  is_Exception e = false →
  get_job R job_list session num_jobs = Raise e.
Proof.
  intros Hs He. unfold get_job, get_job_try. rewrite Hs.
  unfold is_TimeoutError, is_Exception in *.
  by destruct (exn_cls e).
Qed.

(** C1, as the code has it.  Whenever what the transport and the parser
    raise is an [Exception], [get_job] returns: Python's [None] for status
    204, 400 and every other status that is not 200; the empty list for a
    timeout and for any other exception of the request or of the parse. *)
Theorem get_job_failure_results (R : Runtime) (job_list : JobsQueue)
    (session : ClientSession) (num_jobs : Z) :
  let url := _job_get_url R job_list num_jobs in
  (∀ e, session url = Raise e → is_Exception e = true) →
  (∀ resp e, session url = Return resp → response_json resp = Raise e →
             is_Exception e = true) →
  (∃ r, get_job R job_list session num_jobs = Return r) ∧
  (∀ resp, session url = Return resp → status resp ≠ 200 →
     get_job R job_list session num_jobs = Return None) ∧
  (∀ e, session url = Raise e →
     get_job R job_list session num_jobs = Return (Some [])) ∧
  (∀ resp e, session url = Return resp → status resp = 200 →
     response_json resp = Raise e →
     get_job R job_list session num_jobs = Return (Some [])).
Proof.
  intros url Hget Hjson.
  assert (Hraise : ∀ e, session url = Raise e →
            get_job R job_list session num_jobs = Return (Some [])).
  { intros e Hs. apply (get_job_catches _ _ _ _ e); [|by eapply Hget].
    unfold get_job_try. fold url. by rewrite Hs. }
  assert (Hnon200 : ∀ resp, session url = Return resp → status resp ≠ 200 →
            get_job R job_list session num_jobs = Return None).
  { intros resp Hs Hst. unfold get_job.
    by rewrite (get_job_try_non_200 _ _ _ _ resp). }
  assert (Hparse : ∀ resp e, session url = Return resp → status resp = 200 →
            response_json resp = Raise e →
            get_job R job_list session num_jobs = Return (Some [])).
  { intros resp e Hs Hst Hj. apply (get_job_catches _ _ _ _ e); [|by eapply Hjson].
    rewrite (get_job_try_200 _ _ _ _ resp) by done. by rewrite Hj. }
  split; [|by repeat split].
  destruct (session url) as [resp|e] eqn:Hs; [|by eauto].
  destruct (decide (status resp = 200)) as [Hst|Hst]; [|by eauto].
  destruct (response_json resp) as [jobs|e] eqn:Hj; [|by eauto].
  unfold get_job. rewrite (get_job_try_200 _ _ _ _ resp), Hj by done.
  destruct jobs; try by eauto.
  destruct (_ || _); by eauto.
Qed.

Lemma get_job_failure_results_witness :
  get_job sample_runtime [] timing_out 1 = Return (Some []) ∧
  get_job sample_runtime [] (respond 500 JNull) 1 = Return None.
Proof.
  split.
  - assert (H1 : ∀ e, timing_out (_job_get_url sample_runtime [] 1) = Raise e →
                      is_Exception e = true)
      by (intros e [= <-]; reflexivity).
    assert (H2 : ∀ resp e,
               timing_out (_job_get_url sample_runtime [] 1) = Return resp →
               response_json resp = Raise e → is_Exception e = true)
      by (intros resp e [=]).
    destruct (get_job_failure_results sample_runtime [] timing_out 1 H1 H2)
      as (_ & _ & H & _).
    by eapply H.
  - assert (H1 : ∀ e, respond 500 JNull (_job_get_url sample_runtime [] 1)
                      = Raise e → is_Exception e = true)
      by (intros e [=]).
    assert (H2 : ∀ resp e,
               respond 500 JNull (_job_get_url sample_runtime [] 1)
               = Return resp →
               response_json resp = Raise e → is_Exception e = true)
      by (intros resp e [= <-] [=]).
    destruct (get_job_failure_results sample_runtime [] (respond 500 JNull) 1
                H1 H2) as (_ & H & _).
    by eapply H.
Defined.

(** C1 as stated fails: on status 204 (and likewise on 400 and on 500)
    [get_job] returns [None], which is not the empty list. *)
Lemma get_job_204_returns_None :
  get_job sample_runtime [] (respond 204 JNull) 1 = Return None ∧
  get_job sample_runtime [] (respond 400 JNull) 1 = Return None ∧
  get_job sample_runtime [] (respond 500 JNull) 1 = Return None ∧
  (Return None : outcome (option (list json))) ≠ Return (Some []).
Proof. repeat split; done. Qed.

(** C6.  On status 200: an object with both [id] and [input] comes back as
    the one-element list holding it; for an object that lacks either the
    [try] block raises, the handler swallows the exception and the empty
    list comes back; an array comes back as it is. *)
Theorem get_job_200_shapes (R : Runtime) (job_list : JobsQueue)
    (session : ClientSession) (num_jobs : Z) (resp : response) (body : json) :
  session (_job_get_url R job_list num_jobs) = Return resp →
  status resp = 200 →
  response_json resp = Return body →
  (∀ fields, body = JObj fields →
     is_Some (fields !! "id") → is_Some (fields !! "input") →
     get_job R job_list session num_jobs = Return (Some [body])) ∧
  (∀ fields, body = JObj fields →
     fields !! "id" = None ∨ fields !! "input" = None →
     get_job_try R job_list session num_jobs =
       Raise (Exception "Job has missing field(s): id or input.") ∧
     get_job R job_list session num_jobs = Return (Some [])) ∧
  (∀ items, body = JArr items →
     get_job R job_list session num_jobs = Return (Some items)).
Proof.
  intros Hs Hst Hj.
  pose proof (get_job_try_200 R job_list session num_jobs resp Hs Hst) as Htry.
  rewrite Hj in Htry. split; [|split].
  - intros fields -> [i Hi] [x Hx]. unfold get_job. rewrite Htry.
    rewrite !bool_decide_eq_false_2 by congruence. done.
  - intros fields -> Hmissing.
    assert (Hraise : get_job_try R job_list session num_jobs =
              Raise (Exception "Job has missing field(s): id or input.")).
    { rewrite Htry. destruct Hmissing as [H|H]; rewrite H.
      - by rewrite bool_decide_eq_true_2.
      - rewrite (bool_decide_eq_true_2 (None = None)) by done.
        by rewrite orb_true_r. }
    split; [done|]. by eapply get_job_catches.
  - intros items ->. unfold get_job. by rewrite Htry.
Qed.

Lemma get_job_200_shapes_witness :
  get_job sample_runtime [] (respond 200 (JObj sample_job)) 1
    = Return (Some [JObj sample_job]) ∧
  get_job sample_runtime [] (respond 200 (JObj {[ "id" := JStr "a" ]})) 1
    = Return (Some []) ∧
  get_job sample_runtime []
    (respond 200 (JArr [JObj sample_job; JObj {[ "id" := JStr "b" ]}])) 2
    = Return (Some [JObj sample_job; JObj {[ "id" := JStr "b" ]}]).
Proof.
  split; [|split].
  - destruct (get_job_200_shapes sample_runtime [] (respond 200 (JObj sample_job))
                1 _ (JObj sample_job) eq_refl eq_refl eq_refl) as (H & _ & _).
    apply (H sample_job eq_refl); by eexists.
  - destruct (get_job_200_shapes sample_runtime []
                (respond 200 (JObj {[ "id" := JStr "a" ]}))
                1 _ (JObj {[ "id" := JStr "a" ]}) eq_refl eq_refl eq_refl)
      as (_ & H & _).
    apply (H _ eq_refl). by right.
  - destruct (get_job_200_shapes sample_runtime []
                (respond 200 (JArr [JObj sample_job; JObj {[ "id" := JStr "b" ]}]))
                2 _ (JArr [JObj sample_job; JObj {[ "id" := JStr "b" ]}])
                eq_refl eq_refl eq_refl) as (_ & _ & H).
    by apply H.
Defined.

(** C10.  On status 200 with a body that is neither an object nor an
    array, control leaves the [try] block at its end and [get_job] returns
    the empty list. *)
Theorem get_job_200_scalar_body (R : Runtime) (job_list : JobsQueue)
    (session : ClientSession) (num_jobs : Z) (resp : response) (body : json) :
  session (_job_get_url R job_list num_jobs) = Return resp →
  status resp = 200 →
  response_json resp = Return body →
  isinstance_dict body = false →
  isinstance_list body = false →
  get_job_try R job_list session num_jobs = Return None ∧
  get_job R job_list session num_jobs = Return (Some []).
Proof.
  intros Hs Hst Hj Hd Hl.
  pose proof (get_job_try_200 R job_list session num_jobs resp Hs Hst) as Htry.
  rewrite Hj in Htry. unfold get_job. rewrite Htry.
  by destruct body.
Qed.

Lemma get_job_200_scalar_body_witness :
  get_job sample_runtime [] (respond 200 (JStr "ok")) 1 = Return (Some []) ∧
  get_job sample_runtime [] (respond 200 JNull) 1 = Return (Some []) ∧
  get_job sample_runtime [] (respond 200 (JInt 7)) 1 = Return (Some []).
Proof.
  split; [|split].
  - apply (get_job_200_scalar_body sample_runtime [] (respond 200 (JStr "ok")) 1
             _ (JStr "ok") eq_refl eq_refl eq_refl eq_refl eq_refl).
  - apply (get_job_200_scalar_body sample_runtime [] (respond 200 JNull) 1
             _ JNull eq_refl eq_refl eq_refl eq_refl eq_refl).
  - apply (get_job_200_scalar_body sample_runtime [] (respond 200 (JInt 7)) 1
             _ (JInt 7) eq_refl eq_refl eq_refl eq_refl eq_refl).
Defined.

(** ** Terminal invocation *)

Lemma log_job_id_ok (j : job) (h : heap) :
  is_Some (j !! "id") → log_job_id j h = (Return tt, h).
Proof. intros [v Hv]. unfold log_job_id. by rewrite Hv. Qed.

(** A job without [id] never reaches the handler: the first logger call
    raises [KeyError]. *)
Lemma run_job_without_id R handler (j : job) h :
  j !! "id" = None → run_job R handler j h = (Raise (KeyError "id"), h).
Proof. intros Hj. unfold run_job, bind, log_job_id. by rewrite Hj. Qed.

(** Unfolds the control structure of [run_job] for a job that has [id]. *)
Ltac enter_run_job Hid :=
  let v := fresh "v" in
  destruct Hid as [v Hid];
  unfold run_job, run_job_except, try_finally, try_except, bind, log_job_id, ret;
  rewrite Hid; cbv beta iota.

Lemma run_job_returned R handler (j : job) h env h' :
  is_Some (j !! "id") →
  run_job_try R handler j h = (Return env, h') →
  run_job R handler j h = (Return env, h').
Proof. intros Hid Htry. enter_run_job Hid. by rewrite Htry. Qed.

Lemma run_job_caught R handler (j : job) h e h' :
  is_Some (j !! "id") →
  run_job_try R handler j h = (Raise e, h') →
  is_Exception e = true →
  run_job R handler j h =
    (Return {[ "error" := PStr (json_dumps R (error_info R e)) ]}, h').
Proof.
  intros Hid Htry He. enter_run_job Hid. rewrite Htry. cbv beta iota.
  by rewrite He.
Qed.

Lemma run_job_passed_on R handler (j : job) h e h' :
  is_Some (j !! "id") →
  run_job_try R handler j h = (Raise e, h') →
  is_Exception e = false →
  run_job R handler j h = (Raise e, h').
Proof.
  intros Hid Htry He. enter_run_job Hid. rewrite Htry. cbv beta iota.
  by rewrite He.
Qed.

Lemma run_job_try_resolved R handler (j : job) h v h1 env h2 :
  is_Some (j !! "id") →
  resolve handler j h = (Return v, h1) →
  normalize v h1 = (Return env, h2) →
  run_job_try R handler j h =
    match check_return_size R h2 env with
    | None => (Return env, h2)
    | Some e => (Raise e, h2)
    end.
Proof.
  intros Hid Hres Hnorm. unfold run_job_try, bind at 1. rewrite Hres.
  unfold bind at 1. rewrite log_job_id_ok by done.
  unfold bind, check_size, ret. rewrite Hnorm.
  by destruct (check_return_size R h2 env).
Qed.

(** The envelope of a handler whose value is the mapping [d] at [l], field
    by field, and the store when [run_job] returns. *)
Lemma run_job_mapping R handler (j : job) h h1 l d :
  is_Some (j !! "id") →
  resolve handler j h = (Return (PRef l), h1) →
  h1 !! l = Some (ODict d) →
  size_check_passes R h1 (PRef l) →
  let h2 := <[l := ODict (popped d)]> h1 in
  ∃ env : envelope,
    run_job R handler j h = (Return env, h2) ∧
    env !! "output" =
      (if bool_decide (size (popped d) = 0%nat) then None else Some (PRef l)) ∧
    env !! "error" =
      (if truthy h2 (default PNone (d !! "error"))
       then Some (default PNone (d !! "error")) else None) ∧
    env !! "stopPod" =
      (if truthy h2 (default PNone (d !! "refresh_worker"))
       then Some (PBool true) else None) ∧
    (∀ k, k ≠ "output" → k ≠ "error" → k ≠ "stopPod" → env !! k = None).
Proof.
  intros Hid Hres Hl Hsize h2.
  destruct (normalize_dict h1 l d Hl) as (env & Hnorm & Hfields).
  exists env. split; [|done].
  apply run_job_returned; [done|].
  rewrite (run_job_try_resolved _ _ _ _ _ _ _ _ Hid Hres Hnorm).
  by rewrite (Hsize _ _ Hnorm).
Qed.

Lemma normalize_returns v h : ∃ env h', normalize v h = (Return env, h').
Proof.
  destruct (as_dict h v) as [l|] eqn:Hd.
  - destruct v as [| | | | |l']; try discriminate. cbn in Hd.
    destruct (h !! l') as [[|d]|] eqn:Hl; try discriminate.
    destruct (normalize_dict h l' d Hl) as (env & Hn & _). eauto.
  - unfold normalize, bind. rewrite Hd. unfold ret.
    destruct (isinstance_bool v), (eq_empty_dict h _); eauto.
Qed.

Lemma popped_empty_size d : size (popped d) = 0%nat ↔ popped d = ∅.
Proof. apply map_size_empty_iff. Qed.

(** C3, as the code has it.  For a job that carries an [id] and a handler
    whose value is a mapping that passes the size check: [error] and
    [refresh_worker] are removed from the mapping; the mapping that remains
    is the envelope's [output] unless it is empty; an [error] value that is
    truthy is the envelope's [error], and one that is falsy is dropped.  A
    handler returning [{"error": "x", "result": 1}] gives the envelope
    [{output: {"result": 1}, error: "x"}]. *)
Theorem run_job_mapping_output_and_error (R : Runtime) (handler : Handler)
    (j : job) (h h1 : heap) (l : loc) (d : gmap string pyval) :
  is_Some (j !! "id") →
  resolve handler j h = (Return (PRef l), h1) →
  h1 !! l = Some (ODict d) →
  size_check_passes R h1 (PRef l) →
  let h2 := <[l := ODict (popped d)]> h1 in
  ∃ env : envelope,
    run_job R handler j h = (Return env, h2) ∧
    h2 !! l = Some (ODict (popped d)) ∧
    (popped d ≠ ∅ → env !! "output" = Some (PRef l)) ∧
    (∀ v, d !! "error" = Some v → truthy h2 v = true →
          env !! "error" = Some v) ∧
    (∀ v, d !! "error" = Some v → truthy h2 v = false →
          env !! "error" = None) ∧
    (d !! "error" = None → env !! "error" = None) ∧
    (d = {[ "error" := PStr "x"; "result" := PInt 1 ]} →
     popped d = {[ "result" := PInt 1 ]} ∧
     env = {[ "output" := PRef l; "error" := PStr "x" ]}).
Proof.
  intros Hid Hres Hl Hsize h2.
  destruct (run_job_mapping R handler j h h1 l d Hid Hres Hl Hsize)
    as (env & Hrun & Hout & Herr & Hstop & Hrest).
  fold h2 in Hrun, Herr, Hstop.
  exists env. split; [done|]. split; [by apply lookup_insert_eq|].
  split; [|split; [|split; [|split]]].
  - intros Hne. rewrite Hout, bool_decide_eq_false_2; [done|].
    by rewrite popped_empty_size.
  - intros v Hv Ht. rewrite Hv in Herr. cbn in Herr. by rewrite Ht in Herr.
  - intros v Hv Ht. rewrite Hv in Herr. cbn in Herr. by rewrite Ht in Herr.
  - intros Hv. rewrite Hv in Herr. by cbn in Herr.
  - intros ->.
    assert (Hp : popped {[ "error" := PStr "x"; "result" := PInt 1 ]}
                 = ({[ "result" := PInt 1 ]} : gmap string pyval)).
    { unfold popped. by rewrite delete_insert_eq, !delete_singleton_ne. }
    split; [done|]. rewrite Hp in Hout.
    rewrite map_size_singleton in Hout.
    rewrite lookup_insert_eq in Herr.
    rewrite lookup_insert_ne, lookup_singleton_ne in Hstop by done.
    apply map_eq. intros k.
    destruct (decide (k = "output")) as [->|Ho].
    { rewrite Hout. by rewrite lookup_insert_eq. }
    destruct (decide (k = "error")) as [->|He].
    { rewrite Herr. rewrite lookup_insert_ne, lookup_singleton_eq by done.
      reflexivity. }
    rewrite lookup_insert_ne, lookup_singleton_ne by done.
    destruct (decide (k = "stopPod")) as [->|Hs]; [by rewrite Hstop|].
    by apply Hrest.
Qed.

Lemma run_job_mapping_output_and_error_witness :
  run_job sample_runtime (returning 1%positive) sample_job
    (store_of {[ "error" := PStr "x"; "result" := PInt 1 ]})
  = (Return {[ "output" := PRef 1%positive; "error" := PStr "x" ]},
     store_of {[ "result" := PInt 1 ]}).
Proof.
  destruct (run_job_mapping_output_and_error sample_runtime (returning 1%positive)
              sample_job (store_of {[ "error" := PStr "x"; "result" := PInt 1 ]})
              (store_of {[ "error" := PStr "x"; "result" := PInt 1 ]})
              1%positive {[ "error" := PStr "x"; "result" := PInt 1 ]})
    as (env & Hrun & _ & _ & _ & _ & _ & Hinst).
  - by eexists.
  - reflexivity.
  - reflexivity.
  - intros env h' _. reflexivity.
  - destruct (Hinst eq_refl) as [Hp ->]. rewrite Hrun, Hp.
    unfold store_of. by rewrite insert_singleton_eq.
Defined.

(** C3 as stated fails: an [error] value that is present but falsy, here
    the empty string, does not become the envelope's [error]. *)
Lemma run_job_falsy_error_dropped :
  run_job sample_runtime (returning 1%positive) sample_job
    (store_of {[ "error" := PStr EmptyString; "result" := PInt 1 ]})
  = (Return {[ "output" := PRef 1%positive ]}, store_of {[ "result" := PInt 1 ]}) ∧
  ({[ "output" := PRef 1%positive ]} : envelope) !! "error" = None.
Proof. split; by vm_compute. Qed.

(** C7.  For a job that carries an [id] and a handler whose value is a
    mapping that passes the size check and in which nothing remains once
    [error] and [refresh_worker] are removed, the envelope [run_job]
    returns has no [output] key; for the handler returning [{}] the
    envelope is empty. *)
Theorem run_job_empty_output_omitted (R : Runtime) (handler : Handler)
    (j : job) (h h1 : heap) (l : loc) (d : gmap string pyval) :
  is_Some (j !! "id") →
  resolve handler j h = (Return (PRef l), h1) →
  h1 !! l = Some (ODict d) →
  size_check_passes R h1 (PRef l) →
  popped d = ∅ →
  ∃ env : envelope,
    run_job R handler j h = (Return env, <[l := ODict (popped d)]> h1) ∧
    env !! "output" = None ∧
    (d = ∅ → env = ∅).
Proof.
  intros Hid Hres Hl Hsize Hempty.
  destruct (run_job_mapping R handler j h h1 l d Hid Hres Hl Hsize)
    as (env & Hrun & Hout & Herr & Hstop & Hrest).
  rewrite bool_decide_eq_true_2 in Hout by by rewrite popped_empty_size.
  exists env. split; [done|]. split; [done|].
  intros ->. rewrite lookup_empty in Herr, Hstop. cbn in Herr, Hstop.
  apply map_eq. intros k. rewrite lookup_empty.
  destruct (decide (k = "output")) as [->|Ho]; [done|].
  destruct (decide (k = "error")) as [->|He]; [done|].
  destruct (decide (k = "stopPod")) as [->|Hs]; [done|].
  by apply Hrest.
Qed.

Lemma run_job_empty_output_omitted_witness :
  ∃ h', run_job sample_runtime (returning 1%positive) sample_job (store_of ∅) = (Return ∅, h').
Proof.
  destruct (run_job_empty_output_omitted sample_runtime (returning 1%positive) sample_job
              (store_of ∅) (store_of ∅) 1%positive ∅)
    as (env & Hrun & _ & Hempty).
  - by eexists.
  - reflexivity.
  - reflexivity.
  - intros env h' _. reflexivity.
  - reflexivity.
  - rewrite (Hempty eq_refl) in Hrun. eauto.
Defined.

(** Line 139 compares with [{}]: an empty list is not an empty mapping and
    stays in the envelope. *)
Lemma run_job_empty_list_kept :
  run_job sample_runtime (returning 1%positive) sample_job
    ({[ 1%positive := OList [] ]} : heap)
  = (Return {[ "output" := PRef 1%positive ]}, {[ 1%positive := OList [] ]}).
Proof. by vm_compute. Qed.

(** The truth value of [None], a boolean, a number or a string does not
    depend on the store. *)
Lemma truthy_immediate h h' v :
  (∀ l, v ≠ PRef l) → truthy h v = truthy h' v.
Proof. intros Hv. destruct v; try done. by destruct (Hv l). Qed.

(** C8.  For a job that carries an [id] and a handler whose value is a
    mapping that passes the size check and holds [refresh_worker]: when the
    value under that key is truthy, whatever it is, the envelope has
    [stopPod: true]; when it is falsy the envelope has no [stopPod]; in
    both cases the key is gone from the mapping, which is the only thing
    [output] can be, and the envelope itself has no such key. *)
Theorem run_job_refresh_worker (R : Runtime) (handler : Handler)
    (j : job) (h h1 : heap) (l : loc) (d : gmap string pyval) (v : pyval) :
  is_Some (j !! "id") →
  resolve handler j h = (Return (PRef l), h1) →
  h1 !! l = Some (ODict d) →
  size_check_passes R h1 (PRef l) →
  d !! "refresh_worker" = Some v →
  let h2 := <[l := ODict (popped d)]> h1 in
  ∃ env : envelope,
    run_job R handler j h = (Return env, h2) ∧
    (truthy h2 v = true → env !! "stopPod" = Some (PBool true)) ∧
    (truthy h2 v = false → env !! "stopPod" = None) ∧
    (env !! "output" = None ∨ env !! "output" = Some (PRef l)) ∧
    h2 !! l = Some (ODict (popped d)) ∧
    popped d !! "refresh_worker" = None ∧
    env !! "refresh_worker" = None.
Proof.
  intros Hid Hres Hl Hsize Hv h2.
  destruct (run_job_mapping R handler j h h1 l d Hid Hres Hl Hsize)
    as (env & Hrun & Hout & Herr & Hstop & Hrest).
  subst h2. rewrite Hv in Hstop. cbn in Hstop.
  exists env. split; [done|].
  split; [by intros Ht; rewrite Ht in Hstop|].
  split; [by intros Ht; rewrite Ht in Hstop|].
  split; [rewrite Hout; case_bool_decide; auto|].
  split; [by apply lookup_insert_eq|].
  split; [apply lookup_delete_eq|].
  by apply Hrest.
Qed.

Lemma run_job_refresh_worker_witness :
  ∃ env h',
    run_job sample_runtime (returning 1%positive) sample_job
      (store_of {[ "refresh_worker" := PStr "yes" ]}) = (Return env, h') ∧
    env !! "stopPod" = Some (PBool true) ∧
    h' !! 1%positive = Some (ODict (popped {[ "refresh_worker" := PStr "yes" ]})).
Proof.
  destruct (run_job_refresh_worker sample_runtime (returning 1%positive)
              sample_job (store_of {[ "refresh_worker" := PStr "yes" ]})
              (store_of {[ "refresh_worker" := PStr "yes" ]})
              1%positive {[ "refresh_worker" := PStr "yes" ]} (PStr "yes"))
    as (env & Hrun & Htrue & _ & _ & Hstore & _ & _).
  - by eexists.
  - reflexivity.
  - reflexivity.
  - intros env h' _. reflexivity.
  - reflexivity.
  - exists env. eexists. split; [exact Hrun|]. split; [by apply Htrue|done].
Defined.

(** C9, as the code has it.  For a job that carries an [id] and a handler
    whose value is a mapping that passes the size check, [run_job] edits
    that mapping in place: when it returns, the mapping at the same place
    of the store has lost [error] and [refresh_worker] and kept every other
    key with its value, no other object of the store has changed, and the
    envelope's [output], when present, is a reference to that same
    mapping. *)
Theorem run_job_edits_mapping_in_place (R : Runtime) (handler : Handler)
    (j : job) (h h1 : heap) (l : loc) (d : gmap string pyval) :
  is_Some (j !! "id") →
  resolve handler j h = (Return (PRef l), h1) →
  h1 !! l = Some (ODict d) →
  size_check_passes R h1 (PRef l) →
  ∃ (env : envelope) (h2 : heap) (d' : gmap string pyval),
    run_job R handler j h = (Return env, h2) ∧
    h2 !! l = Some (ODict d') ∧
    d' !! "error" = None ∧
    d' !! "refresh_worker" = None ∧
    (∀ k, k ≠ "error" → k ≠ "refresh_worker" → d' !! k = d !! k) ∧
    (∀ l', l' ≠ l → h2 !! l' = h1 !! l') ∧
    (d' ≠ ∅ → env !! "output" = Some (PRef l)).
Proof.
  intros Hid Hres Hl Hsize.
  destruct (run_job_mapping R handler j h h1 l d Hid Hres Hl Hsize)
    as (env & Hrun & Hout & _).
  exists env, (<[l := ODict (popped d)]> h1), (popped d).
  split; [done|]. split; [by apply lookup_insert_eq|].
  split; [by rewrite popped_lookup, bool_decide_eq_true_2 by auto|].
  split; [by rewrite popped_lookup, bool_decide_eq_true_2 by auto|].
  split; [|split].
  - intros k He Hr. rewrite popped_lookup, bool_decide_eq_false_2; [done|].
    by intros [?|?].
  - intros l' Hne. by rewrite lookup_insert_ne.
  - intros Hne. rewrite Hout, bool_decide_eq_false_2; [done|].
    by rewrite popped_empty_size.
Qed.

Lemma run_job_edits_mapping_in_place_witness :
  ∃ (env : envelope) (h2 : heap) (d' : gmap string pyval),
    run_job sample_runtime (returning_async 1%positive) sample_job
      (store_of {[ "error" := PStr "x"; "result" := PInt 1 ]})
      = (Return env, h2) ∧
    h2 !! 1%positive = Some (ODict d') ∧
    d' !! "error" = None ∧
    d' !! "result" = Some (PInt 1).
Proof.
  destruct (run_job_edits_mapping_in_place sample_runtime
              (returning_async 1%positive) sample_job
              (store_of {[ "error" := PStr "x"; "result" := PInt 1 ]})
              (store_of {[ "error" := PStr "x"; "result" := PInt 1 ]})
              1%positive {[ "error" := PStr "x"; "result" := PInt 1 ]})
    as (env & h2 & d' & Hrun & Hl & Herr & _ & Hkeep & _).
  - by eexists.
  - reflexivity.
  - reflexivity.
  - intros env h' _. reflexivity.
  - exists env, h2, d'. split; [done|]. split; [done|]. split; [done|].
    rewrite Hkeep by done. by rewrite lookup_insert_ne, lookup_singleton_eq.
Defined.

(** C9 as stated fails: the mapping the handler returned holds [error]
    before [run_job] and no longer holds it afterwards. *)
Lemma run_job_pops_in_place :
  let before := store_of {[ "error" := PStr "x"; "result" := PInt 1 ]} in
  let after := store_of {[ "result" := PInt 1 ]} in
  run_job sample_runtime (returning 1%positive) sample_job before
    = (Return {[ "output" := PRef 1%positive; "error" := PStr "x" ]}, after) ∧
  before !! 1%positive
    = Some (ODict {[ "error" := PStr "x"; "result" := PInt 1 ]}) ∧
  after !! 1%positive = Some (ODict {[ "result" := PInt 1 ]}) ∧
  ({[ "error" := PStr "x"; "result" := PInt 1 ]} : gmap string pyval)
    !! "error" = Some (PStr "x") ∧
  ({[ "result" := PInt 1 ]} : gmap string pyval) !! "error" = None.
Proof. repeat split; by vm_compute. Qed.

(** ** Streaming invocation *)

Lemma logged_ok {G} (j : job) (k : rjg_step * rjg_state G) :
  is_Some (j !! "id") → logged j k = k.
Proof. intros [v Hv]. unfold logged. by rewrite Hv. Qed.

(** A job without [id] stops the generator at its first step. *)
Lemma run_job_generator_without_id {G} R (handler : GenHandler G) (j : job) :
  j !! "id" = None →
  run_job_generator R handler j Created = (Escape (KeyError "id"), Closed).
Proof. intros Hj. unfold run_job_generator, logged. by rewrite Hj. Qed.

(** Each item of the handler's generator is passed on as one partial. *)
Lemma run_job_generator_item {G} R (handler : GenHandler G) (j : job) g v g' :
  is_Some (j !! "id") →
  next handler g = GYield v g' →
  run_job_generator R handler j (AtOutput g)
    = (Emit {[ "output" := v ]}, AtOutput g').
Proof.
  intros Hid Hnext. cbn. unfold rjg_loop. rewrite Hnext.
  destruct (isasyncgenfunction handler); by rewrite logged_ok.
Qed.

Lemma run_job_generator_first {G} R (handler : GenHandler G) (j : job) g v g' :
  is_Some (j !! "id") →
  call handler j = Return g →
  next handler g = GYield v g' →
  run_job_generator R handler j Created
    = (Emit {[ "output" := v ]}, AtOutput g').
Proof.
  intros Hid Hcall Hnext. cbn. rewrite logged_ok, Hcall by done.
  unfold rjg_loop. rewrite Hnext.
  destruct (isasyncgenfunction handler); by rewrite logged_ok.
Qed.

(* ===================================================================== *)
(** * Further properties of the terminal invocation                       *)
(* ===================================================================== *)

Lemma normalize_not_dict h v :
  as_dict h v = None →
  normalize v h = (Return {[ "output" := v ]}, h).
Proof.
  intros Hd. unfold normalize, bind. rewrite Hd.
  assert (Hne : eq_empty_dict h (({[ "output" := v ]} : envelope) !! "output")
                = false).
  { rewrite lookup_singleton_eq. destruct v as [| | | | |l]; try done.
    cbn in Hd |- *. by destruct (h !! l) as [[|d]|]. }
  destruct (isinstance_bool v); unfold ret; by rewrite Hne.
Qed.

Lemma as_dict_Some h v l :
  as_dict h v = Some l → v = PRef l ∧ ∃ d, h !! l = Some (ODict d).
Proof.
  destruct v as [| | | | |l']; try done. cbn.
  destruct (h !! l') as [[|d]|] eqn:Hl; try done.
  intros [= ->]. eauto.
Qed.

(** What the [try] block returned was normalized from the handler's value
    and accepted by the size check. *)
Lemma run_job_try_returned_inv R handler (j : job) h env h2 :
  is_Some (j !! "id") →
  run_job_try R handler j h = (Return env, h2) →
  ∃ v h1,
    resolve handler j h = (Return v, h1) ∧
    normalize v h1 = (Return env, h2) ∧
    check_return_size R h2 env = None.
Proof.
  intros Hid Htry.
  destruct (resolve handler j h) as [[v|e] h1] eqn:Hres.
  - destruct (normalize_returns v h1) as (env' & h2' & Hnorm).
    rewrite (run_job_try_resolved _ _ _ _ _ _ _ _ Hid Hres Hnorm) in Htry.
    destruct (check_return_size R h2' env') eqn:Hc; [done|].
    injection Htry as <- <-. eauto.
  - unfold run_job_try, bind in Htry. by rewrite Hres in Htry.
Qed.

(** X1.  A job without [id] never reaches the handler: [run_job] raises
    [KeyError] at its first statement, outside the [try] block, and the
    store is left as it was whatever the handler would have done. *)
Theorem run_job_missing_id_raises (R : Runtime) (handler : Handler)
    (j : job) (h : heap) :
  j !! "id" = None →
  run_job R handler j h = (Raise (KeyError "id"), h) ∧
  ∀ handler', run_job R handler' j h = run_job R handler j h.
Proof.
  intros Hj. split; [by apply run_job_without_id|].
  intros handler'. by rewrite !run_job_without_id.
Qed.

Lemma run_job_missing_id_raises_witness :
  run_job sample_runtime (returning 1%positive) {[ "input" := JObj ∅ ]}
    (store_of {[ "error" := PStr "x" ]})
  = (Raise (KeyError "id"), store_of {[ "error" := PStr "x" ]}).
Proof.
  apply (run_job_missing_id_raises sample_runtime (returning 1%positive)
           {[ "input" := JObj ∅ ]} (store_of {[ "error" := PStr "x" ]})).
  apply lookup_singleton_ne. done.
Defined.

(** X4.  A handler value that is not a dictionary ([None], a boolean, a
    number, a string, a list, also an empty one) is wrapped as it is: the
    envelope is [{output: value}] and the store is untouched. *)
Theorem run_job_wraps_plain_value (R : Runtime) (handler : Handler)
    (j : job) (h h1 : heap) (v : pyval) :
  is_Some (j !! "id") →
  resolve handler j h = (Return v, h1) →
  as_dict h1 v = None →
  check_return_size R h1 {[ "output" := v ]} = None →
  run_job R handler j h = (Return {[ "output" := v ]}, h1).
Proof.
  intros Hid Hres Hd Hsize. apply run_job_returned; [done|].
  rewrite (run_job_try_resolved _ _ _ _ _ _ _ _ Hid Hres
             (normalize_not_dict h1 v Hd)).
  by rewrite Hsize.
Qed.

Lemma run_job_wraps_plain_value_witness :
  run_job sample_runtime (λ _, ret (Plain (PBool false))) sample_job ∅
    = (Return {[ "output" := PBool false ]}, ∅) ∧
  run_job sample_runtime (λ _, ret (Awaitable (ret PNone))) sample_job ∅
    = (Return {[ "output" := PNone ]}, ∅).
Proof.
  split.
  - by apply (run_job_wraps_plain_value sample_runtime
                (λ _, ret (Plain (PBool false))) sample_job ∅ ∅ (PBool false));
      [eexists| | |].
  - by apply (run_job_wraps_plain_value sample_runtime
                (λ _, ret (Awaitable (ret PNone))) sample_job ∅ ∅ PNone);
      [eexists| | |].
Defined.

Lemma popped_id d :
  d !! "error" = None → d !! "refresh_worker" = None → popped d = d.
Proof.
  intros He Hr. unfold popped.
  rewrite (delete_id d "error") by done. by apply delete_id.
Qed.

(** X5.  A non-empty mapping that holds neither [error] nor
    [refresh_worker] is the envelope's [output] and nothing else is in the
    envelope; the mapping and the rest of the store are exactly as the
    handler left them. *)
Theorem run_job_plain_mapping (R : Runtime) (handler : Handler)
    (j : job) (h h1 : heap) (l : loc) (d : gmap string pyval) :
  is_Some (j !! "id") →
  resolve handler j h = (Return (PRef l), h1) →
  h1 !! l = Some (ODict d) →
  size_check_passes R h1 (PRef l) →
  d !! "error" = None →
  d !! "refresh_worker" = None →
  d ≠ ∅ →
  run_job R handler j h = (Return {[ "output" := PRef l ]}, h1).
Proof.
  intros Hid Hres Hl Hsize He Hr Hne.
  destruct (run_job_mapping R handler j h h1 l d Hid Hres Hl Hsize)
    as (env & Hrun & Hout & Herr & Hstop & Hrest).
  rewrite (popped_id d He Hr) in Hrun, Hout.
  rewrite (insert_id h1 l (ODict d) Hl) in Hrun.
  rewrite He in Herr. rewrite Hr in Hstop. cbn in Herr, Hstop.
  rewrite bool_decide_eq_false_2 in Hout by by rewrite map_size_empty_iff.
  rewrite Hrun. f_equal. f_equal.
  apply map_eq. intros k.
  destruct (decide (k = "output")) as [->|Ho].
  { by rewrite Hout, lookup_singleton_eq. }
  rewrite lookup_singleton_ne by done.
  destruct (decide (k = "error")) as [->|Hke]; [done|].
  destruct (decide (k = "stopPod")) as [->|Hks]; [done|].
  by apply Hrest.
Qed.

Lemma run_job_plain_mapping_witness :
  run_job sample_runtime (returning 1%positive) sample_job
    (store_of {[ "result" := PInt 1 ]})
  = (Return {[ "output" := PRef 1%positive ]}, store_of {[ "result" := PInt 1 ]}).
Proof.
  apply (run_job_plain_mapping sample_runtime (returning 1%positive) sample_job
           (store_of {[ "result" := PInt 1 ]}) (store_of {[ "result" := PInt 1 ]})
           1%positive {[ "result" := PInt 1 ]}).
  - by eexists.
  - reflexivity.
  - reflexivity.
  - intros env h' _. reflexivity.
  - by apply lookup_singleton_ne.
  - by apply lookup_singleton_ne.
  - intros Heq. apply (f_equal (λ m : gmap string pyval, m !! "result")) in Heq.
    by rewrite lookup_singleton_eq, lookup_empty in Heq.
Defined.

Lemma normalize_fields v h env h' :
  normalize v h = (Return env, h') →
  ∀ k x, env !! k = Some x →
    k = "output" ∨ k = "error" ∨ (k = "stopPod" ∧ x = PBool true).
Proof.
  intros Hnorm k x Hk.
  destruct (as_dict h v) as [l|] eqn:Hd.
  - apply as_dict_Some in Hd as [-> [d Hl]].
    destruct (normalize_dict h l d Hl) as (env' & Hn & _ & _ & Hstop & Hrest).
    rewrite Hn in Hnorm. injection Hnorm as <- <-.
    destruct (decide (k = "output")) as [->|Ho]; [auto|].
    destruct (decide (k = "error")) as [->|He]; [auto|].
    destruct (decide (k = "stopPod")) as [->|Hs].
    + right. right. split; [done|]. rewrite Hstop in Hk.
      destruct (truthy _ _); congruence.
    + rewrite Hrest in Hk by done. discriminate.
  - rewrite (normalize_not_dict h v Hd) in Hnorm. injection Hnorm as <- <-.
    apply lookup_singleton_Some in Hk as [<- _]. auto.
Qed.

(** X6.  Whatever the handler does, an envelope that [run_job] returns has
    no field other than [output], [error] and [stopPod], and its [stopPod],
    when present, is [True]. *)
Theorem run_job_envelope_fields (R : Runtime) (handler : Handler) (j : job)
    (h : heap) (env : envelope) (h' : heap) :
  run_job R handler j h = (Return env, h') →
  ∀ k x, env !! k = Some x →
    k = "output" ∨ k = "error" ∨ (k = "stopPod" ∧ x = PBool true).
Proof.
  intros Hrun k x Hk.
  destruct (j !! "id") as [i|] eqn:Hj;
    [|by rewrite run_job_without_id in Hrun].
  assert (Hid : is_Some (j !! "id")) by (rewrite Hj; eauto).
  destruct (run_job_try R handler j h) as [[env0|e] h1] eqn:Htry.
  - rewrite (run_job_returned _ _ _ _ _ _ Hid Htry) in Hrun.
    injection Hrun as <- <-.
    destruct (run_job_try_returned_inv _ _ _ _ _ _ Hid Htry)
      as (v & h0 & _ & Hnorm & _).
    by eapply normalize_fields.
  - destruct (is_Exception e) eqn:He.
    + rewrite (run_job_caught _ _ _ _ _ _ Hid Htry He) in Hrun.
      injection Hrun as <- <-.
      apply lookup_singleton_Some in Hk as [<- _]. auto.
    + by rewrite (run_job_passed_on _ _ _ _ _ _ Hid Htry He) in Hrun.
Qed.

Lemma run_job_envelope_fields_witness :
  "stopPod" = "output" ∨ "stopPod" = "error" ∨
  ("stopPod" = "stopPod" ∧ PBool true = PBool true).
Proof.
  apply (run_job_envelope_fields sample_runtime (returning 1%positive)
           sample_job (store_of {[ "refresh_worker" := PInt 7 ]})
           {[ "stopPod" := PBool true ]} (store_of ∅)).
  - by vm_compute.
  - by apply lookup_singleton_eq.
Defined.

(** X7.  When the size check raises an [Exception] for the envelope of a
    mapping, the envelope returned is the diagnostic one, without the
    [output] already computed, while the two keys stay removed from the
    handler's mapping. *)
Theorem run_job_size_fault_after_pops (R : Runtime) (handler : Handler)
    (j : job) (h h1 : heap) (l : loc) (d : gmap string pyval) (e : exn) :
  is_Some (j !! "id") →
  resolve handler j h = (Return (PRef l), h1) →
  h1 !! l = Some (ODict d) →
  (∀ env h2, normalize (PRef l) h1 = (Return env, h2) →
             check_return_size R h2 env = Some e) →
  is_Exception e = true →
  run_job R handler j h =
    (Return {[ "error" := PStr (json_dumps R (error_info R e)) ]},
     <[l := ODict (popped d)]> h1).
Proof.
  intros Hid Hres Hl Hsize He.
  destruct (normalize_dict h1 l d Hl) as (env & Hnorm & _).
  apply run_job_caught; [done| |done].
  rewrite (run_job_try_resolved _ _ _ _ _ _ _ _ Hid Hres Hnorm).
  by rewrite (Hsize _ _ Hnorm).
Qed.

Lemma run_job_size_fault_after_pops_witness :
  ∃ env,
    run_job rejecting_runtime (returning 1%positive) sample_job
      (store_of {[ "error" := PStr "x"; "result" := PInt 1 ]})
    = (Return env,
       <[1%positive := ODict (popped {[ "error" := PStr "x"; "result" := PInt 1 ]})]>
         (store_of {[ "error" := PStr "x"; "result" := PInt 1 ]})).
Proof.
  eexists.
  apply (run_job_size_fault_after_pops rejecting_runtime (returning 1%positive)
           sample_job (store_of {[ "error" := PStr "x"; "result" := PInt 1 ]})
           (store_of {[ "error" := PStr "x"; "result" := PInt 1 ]})
           1%positive {[ "error" := PStr "x"; "result" := PInt 1 ]}
           (ValueError "too large")).
  - by eexists.
  - reflexivity.
  - reflexivity.
  - intros env h2 _. reflexivity.
  - reflexivity.
Defined.

(* ===================================================================== *)
(** * Further properties of the acquisition                               *)
(* ===================================================================== *)

(** X9.  [get_job] raises only what is not an [Exception], and only when
    the request raised it or, on status 200, the parse of the body did. *)
Theorem get_job_raises_iff (R : Runtime) (job_list : JobsQueue)
    (session : ClientSession) (num_jobs : Z) (e : exn) :
  let url := _job_get_url R job_list num_jobs in
  get_job R job_list session num_jobs = Raise e ↔
  is_Exception e = false ∧
  (session url = Raise e ∨
   ∃ resp, session url = Return resp ∧ status resp = 200 ∧
           response_json resp = Raise e).
Proof.
  intros url.
  assert (Hcls : ∀ e0, (if is_TimeoutError e0 then Return (Some [])
                        else if is_Exception e0 then Return (Some [])
                        else Raise e0 : outcome (option (list json)))
                       = Raise e ↔ is_Exception e0 = false ∧ e0 = e).
  { intros e0. unfold is_TimeoutError, is_Exception.
    destruct (exn_cls e0).
    - split; [done | by intros [? _]].
    - split; [done | by intros [? _]].
    - split; [by intros [= ->] | by intros [_ ->]]. }
  split.
  - intros Hget. unfold get_job in Hget.
    destruct (session url) as [resp|e0] eqn:Hs.
    + destruct (decide (status resp = 200)) as [Hst|Hst].
      * rewrite (get_job_try_200 _ _ _ _ resp Hs Hst) in Hget.
        destruct (response_json resp) as [body|e0] eqn:Hj.
        { destruct body; try done.
          destruct (_ || _); [|done]. apply Hcls in Hget as [Habs _]. done. }
        apply Hcls in Hget as [He ->]. split; [done|]. right. eauto.
      * by rewrite (get_job_try_non_200 _ _ _ _ resp Hs Hst) in Hget.
    + unfold get_job_try in Hget. fold url in Hget. rewrite Hs in Hget.
      apply Hcls in Hget as [He ->]. auto.
  - intros [He [Hs | (resp & Hs & Hst & Hj)]].
    + by apply get_job_lets_through.
    + unfold get_job. rewrite (get_job_try_200 _ _ _ _ resp Hs Hst), Hj.
      apply Hcls. done.
Qed.

Lemma get_job_raises_iff_witness :
  get_job sample_runtime [] (λ _, Raise KeyboardInterrupt) 1
  = Raise KeyboardInterrupt.
Proof.
  apply (proj2 (get_job_raises_iff sample_runtime []
                  (λ _, Raise KeyboardInterrupt) 1 KeyboardInterrupt)).
  split; [reflexivity | by left].
Defined.

(** X10.  Jobs come from a status 200 only: when [get_job] returns a list
    that is not empty, the response had status 200 and its body was either
    that very list as a JSON array, or the single object returned, which
    holds both [id] and [input]. *)
Theorem get_job_jobs_only_from_200 (R : Runtime) (job_list : JobsQueue)
    (session : ClientSession) (num_jobs : Z) (first : json) (rest : list json) :
  get_job R job_list session num_jobs = Return (Some (first :: rest)) →
  ∃ resp body,
    session (_job_get_url R job_list num_jobs) = Return resp ∧
    status resp = 200 ∧
    response_json resp = Return body ∧
    (body = JArr (first :: rest) ∨
     (rest = [] ∧ body = first ∧
      ∃ fields, first = JObj fields ∧
                is_Some (fields !! "id") ∧ is_Some (fields !! "input"))).
Proof.
  intros Hget. unfold get_job in Hget.
  destruct (session (_job_get_url R job_list num_jobs)) as [resp|e0] eqn:Hs.
  - destruct (decide (status resp = 200)) as [Hst|Hst].
    + rewrite (get_job_try_200 _ _ _ _ resp Hs Hst) in Hget.
      destruct (response_json resp) as [body|e0] eqn:Hj.
      * exists resp, body. repeat (split; [done|]).
        destruct body as [| | | | |items|fields]; try done.
        { left. by injection Hget as ->. }
        right.
        destruct (bool_decide (fields !! "id" = None)) eqn:Hid;
          [by cbn in Hget|].
        destruct (bool_decide (fields !! "input" = None)) eqn:Hin;
          [by cbn in Hget|].
        cbn in Hget. injection Hget as <- <-.
        apply bool_decide_eq_false in Hid, Hin.
        split; [done|]. split; [done|]. exists fields. split; [done|].
        by rewrite <- !not_eq_None_Some.
      * by destruct (is_TimeoutError e0), (is_Exception e0).
    + by rewrite (get_job_try_non_200 _ _ _ _ resp Hs Hst) in Hget.
  - unfold get_job_try in Hget. rewrite Hs in Hget.
    by destruct (is_TimeoutError e0), (is_Exception e0).
Qed.

Lemma get_job_jobs_only_from_200_witness :
  ∃ resp body,
    respond 200 (JObj sample_job) (_job_get_url sample_runtime [] 1)
      = Return resp ∧
    status resp = 200 ∧
    response_json resp = Return body ∧
    (body = JArr [JObj sample_job] ∨
     ([] = @nil json ∧ body = JObj sample_job ∧
      ∃ fields, JObj sample_job = JObj fields ∧
                is_Some (fields !! "id") ∧ is_Some (fields !! "input"))).
Proof.
  apply (get_job_jobs_only_from_200 sample_runtime []
           (respond 200 (JObj sample_job)) 1 (JObj sample_job) []).
  by vm_compute.
Defined.

(** X11.  [get_job] returns [None] exactly when the transport answered
    with a status other than 200. *)
Theorem get_job_None_iff (R : Runtime) (job_list : JobsQueue)
    (session : ClientSession) (num_jobs : Z) :
  get_job R job_list session num_jobs = Return None ↔
  ∃ resp, session (_job_get_url R job_list num_jobs) = Return resp ∧
          status resp ≠ 200.
Proof.
  split.
  - intros Hget. unfold get_job in Hget.
    destruct (session (_job_get_url R job_list num_jobs)) as [resp|e0] eqn:Hs.
    + destruct (decide (status resp = 200)) as [Hst|Hst]; [|eauto].
      rewrite (get_job_try_200 _ _ _ _ resp Hs Hst) in Hget.
      destruct (response_json resp) as [body|e0].
      * destruct body; try done.
        destruct (_ || _); [|done]. by destruct (is_TimeoutError _).
      * by destruct (is_TimeoutError e0), (is_Exception e0).
    + unfold get_job_try in Hget. rewrite Hs in Hget.
      by destruct (is_TimeoutError e0), (is_Exception e0).
  - intros (resp & Hs & Hst). unfold get_job.
    by rewrite (get_job_try_non_200 _ _ _ _ resp Hs Hst).
Qed.

Lemma get_job_None_iff_witness :
  get_job sample_runtime [] (respond 404 JNull) 1 = Return None.
Proof.
  apply (proj2 (get_job_None_iff sample_runtime [] (respond 404 JNull) 1)).
  exists (mk_response 404 (Return JNull)). by split.
Defined.

(** X12.  The array of a batch response is not validated: an element
    without [id] is returned as a job, and [run_job] on that job raises
    [KeyError] before the handler is called. *)
Theorem batch_job_without_id_breaks_run_job (R : Runtime)
    (job_list : JobsQueue) (session : ClientSession) (num_jobs : Z)
    (resp : response) (fields : job) (others : list json)
    (handler : Handler) (h : heap) :
  session (_job_get_url R job_list num_jobs) = Return resp →
  status resp = 200 →
  response_json resp = Return (JArr (JObj fields :: others)) →
  fields !! "id" = None →
  get_job R job_list session num_jobs = Return (Some (JObj fields :: others)) ∧
  run_job R handler fields h = (Raise (KeyError "id"), h).
Proof.
  intros Hs Hst Hj Hid. split; [|by apply run_job_without_id].
  unfold get_job. by rewrite (get_job_try_200 _ _ _ _ resp Hs Hst), Hj.
Qed.

Lemma batch_job_without_id_breaks_run_job_witness :
  get_job sample_runtime ["a"]
    (respond 200 (JArr [JObj {[ "input" := JInt 1 ]}])) 2
    = Return (Some [JObj {[ "input" := JInt 1 ]}]) ∧
  run_job sample_runtime (returning 1%positive) {[ "input" := JInt 1 ]} ∅
    = (Raise (KeyError "id"), ∅).
Proof.
  apply (batch_job_without_id_breaks_run_job sample_runtime ["a"]
           (respond 200 (JArr [JObj {[ "input" := JInt 1 ]}])) 2
           (mk_response 200 (Return (JArr [JObj {[ "input" := JInt 1 ]}])))
           {[ "input" := JInt 1 ]} [] (returning 1%positive) ∅).
  - reflexivity.
  - reflexivity.
  - reflexivity.
  - by apply lookup_singleton_ne.
Defined.

(* ===================================================================== *)
(** * Further properties of the poll URL                                  *)
(* ===================================================================== *)

Lemma str_length_app (a b : string) :
  String.length (a +:+ b) = (String.length a + String.length b)%nat.
Proof.
  induction a as [|x a IH]; rewrite ?str_app_nil, ?str_app_cons;
    cbn [String.length]; lia.
Qed.

Lemma prefix_shorten (a x y : string) :
  String.prefix a (x +:+ y) = true →
  (String.length a ≤ String.length x)%nat →
  String.prefix a x = true.
Proof.
  revert x. induction a as [|c a IH]; intros x Hp Hlen; [by destruct x|].
  destruct x as [|d x]; [cbn in Hlen; lia|].
  rewrite str_app_cons in Hp. cbn in Hp |- *.
  destruct (ascii_dec c d); [|done].
  apply IH; [done | cbn in Hlen; lia].
Qed.

(** The characters of a matched occurrence that remain are passed over. *)
Lemma replace_from_skip (old new tail q : string) :
  replace_from old new (String.length tail) (tail +:+ q)
  = replace_from old new 0 q.
Proof.
  induction tail as [|x tail IH]; rewrite ?str_app_nil, ?str_app_cons.
  - cbn [String.length]. by destruct q.
  - cbn [String.length replace_from]. apply IH.
Qed.

Lemma replace_from_absent (old new s : string) :
  containsb old s = false →
  replace_from old new 0 s = s.
Proof.
  induction s as [|x s IH]; intros Hc; [done|].
  cbn [containsb] in Hc. apply orb_false_elim in Hc as [Hp Hc].
  cbn [replace_from]. rewrite Hp. by rewrite IH.
Qed.

Lemma replace_from_head (c : ascii) (tail new q : string) :
  replace_from (String c tail) new 0 (String c tail +:+ q)
  = new +:+ replace_from (String c tail) new 0 q.
Proof.
  rewrite str_app_cons. cbn [replace_from].
  rewrite <- str_app_cons, prefix_app. cbn [String.length].
  replace (S (String.length tail) - 1)%nat with (String.length tail) by lia.
  by rewrite replace_from_skip.
Qed.

(** [old] is [most] followed by the character [last]; it does not occur
    in [p +:+ most], so its first occurrence in [p +:+ old +:+ q] is the
    one shown. *)
Lemma replace_from_first (old new most p q : string) (last : ascii) :
  old = most +:+ String last EmptyString →
  containsb old (p +:+ most) = false →
  replace_from old new 0 (p +:+ old +:+ q)
  = p +:+ new +:+ replace_from old new 0 q.
Proof.
  intros Hold. induction p as [|x p IH]; intros Hc.
  - rewrite !str_app_nil.
    destruct old as [|c tail]; [by destruct most|].
    apply replace_from_head.
  - rewrite !str_app_cons in *. cbn [containsb] in Hc.
    apply orb_false_elim in Hc as [Hp Hc]. cbn [replace_from].
    destruct (String.prefix old (String x (p +:+ old +:+ q))) eqn:Hpre.
    + exfalso.
      assert (Heq : String x (p +:+ old +:+ q)
                    = String x (p +:+ most) +:+ (String last EmptyString +:+ q)).
      { rewrite str_app_cons. f_equal. rewrite Hold.
        by rewrite !str_app_assoc. }
      rewrite Heq in Hpre.
      apply prefix_shorten in Hpre; [congruence|].
      rewrite Hold. cbn [String.length].
      rewrite !str_length_app. cbn [String.length]. lia.
    + by rewrite IH.
Qed.

(** X14.  Without [RUNPOD_WEBHOOK_GET_JOB] in the environment the base URL
    is the text [None], whatever the worker id, and the poll URL is built
    on it. *)
Theorem job_get_url_unconfigured (R : Runtime) (job_list : JobsQueue) :
  environ R !! "RUNPOD_WEBHOOK_GET_JOB" = None →
  JOB_GET_URL R = "None" ∧
  _job_get_url R job_list 1
    = "None&job_in_progress="
      +:+ match get_job_count job_list with O => "0" | S _ => "1" end.
Proof.
  intros Henv.
  assert (Hbase : JOB_GET_URL R = "None").
  { unfold JOB_GET_URL. by rewrite Henv. }
  split; [done|]. rewrite job_get_url_single by lia. by rewrite Hbase.
Qed.

Lemma job_get_url_unconfigured_witness :
  _job_get_url unconfigured_runtime [] 1 = "None&job_in_progress=0".
Proof.
  apply (job_get_url_unconfigured unconfigured_runtime []).
  apply lookup_empty.
Defined.

(** X15.  A requested count of 1, of 0 or below 0 makes no difference: the
    single-job URL is polled. *)
Theorem job_get_url_small_counts (R : Runtime) (job_list : JobsQueue)
    (batch_size : Z) :
  batch_size ≤ 1 →
  _job_get_url R job_list batch_size = _job_get_url R job_list 1.
Proof. intros Hle. by rewrite !job_get_url_single by lia. Qed.

Lemma job_get_url_small_counts_witness :
  _job_get_url sample_runtime ["a"] (-3) = _job_get_url sample_runtime ["a"] 1.
Proof. apply job_get_url_small_counts. lia. Defined.

(** X16.  When the configured URL has [/job-take/] once, a batch request
    goes to the same URL with that segment turned into [/job-take-batch/],
    followed by the three parameters in the order [batch_size],
    [batch_strategy], [job_in_progress]. *)
Theorem job_get_url_batch_endpoint (R : Runtime) (job_list : JobsQueue)
    (batch_size : Z) (p rest : string) :
  JOB_GET_URL R = p +:+ "/job-take/" +:+ rest →
  containsb "/job-take/" (p +:+ "/job-take") = false →
  containsb "/job-take/" rest = false →
  1 < batch_size →
  _job_get_url R job_list batch_size
  = p +:+ "/job-take-batch/" +:+ rest
    +:+ "&batch_size=" +:+ str_int batch_size
    +:+ "&batch_strategy=LMove"
    +:+ "&job_in_progress="
    +:+ match get_job_count job_list with O => "0" | S _ => "1" end.
Proof.
  intros Hbase Hp Hrest Hlt. rewrite job_get_url_batch by done.
  rewrite Hbase. unfold str_replace.
  rewrite (replace_from_first "/job-take/" "/job-take-batch/" "/job-take"
             p rest "/"%char eq_refl Hp).
  rewrite (replace_from_absent _ _ rest Hrest).
  by rewrite !str_app_assoc.
Qed.

Lemma job_get_url_batch_endpoint_witness :
  _job_get_url sample_runtime ["a"] 5
  = "https://api.runpod.ai/v2/ep/job-take-batch/worker-1?gpu=A100"
    +:+ "&batch_size=5&batch_strategy=LMove&job_in_progress=1".
Proof.
  apply (job_get_url_batch_endpoint sample_runtime ["a"] 5
           "https://api.runpod.ai/v2/ep" "worker-1?gpu=A100").
  - by vm_compute.
  - by vm_compute.
  - by vm_compute.
  - lia.
Defined.

(** X17.  When the configured URL has no [/job-take/] segment, a batch
    request goes to the configured URL itself, with the batch parameters
    added. *)
Theorem job_get_url_batch_without_segment (R : Runtime)
    (job_list : JobsQueue) (batch_size : Z) :
  containsb "/job-take/" (JOB_GET_URL R) = false →
  1 < batch_size →
  _job_get_url R job_list batch_size
  = JOB_GET_URL R
    +:+ "&batch_size=" +:+ str_int batch_size
    +:+ "&batch_strategy=LMove"
    +:+ "&job_in_progress="
    +:+ match get_job_count job_list with O => "0" | S _ => "1" end.
Proof.
  intros Habs Hlt. rewrite job_get_url_batch by done.
  unfold str_replace. by rewrite (replace_from_absent _ _ _ Habs).
Qed.

Lemma job_get_url_batch_without_segment_witness :
  _job_get_url unconfigured_runtime [] 2
  = "None&batch_size=2&batch_strategy=LMove&job_in_progress=0".
Proof.
  apply (job_get_url_batch_without_segment unconfigured_runtime [] 2).
  - by vm_compute.
  - lia.
Defined.

(** X18.  The base URL is the configured one with its [$ID] placeholder
    replaced by the worker id; the worker id is put in as it is, also when
    it holds [$ID] itself. *)
Theorem JOB_GET_URL_worker_id (R : Runtime) (p rest : string) :
  environ R !! "RUNPOD_WEBHOOK_GET_JOB" = Some (p +:+ "$ID" +:+ rest) →
  containsb "$ID" (p +:+ "$I") = false →
  containsb "$ID" rest = false →
  JOB_GET_URL R = p +:+ WORKER_ID R +:+ rest.
Proof.
  intros Henv Hp Hrest. unfold JOB_GET_URL. rewrite Henv.
  cbn [str_optional]. unfold str_replace.
  rewrite (replace_from_first "$ID" (WORKER_ID R) "$I" p rest "D"%char
             eq_refl Hp).
  by rewrite (replace_from_absent _ _ rest Hrest).
Qed.

Lemma JOB_GET_URL_worker_id_witness :
  JOB_GET_URL sample_runtime
  = "https://api.runpod.ai/v2/ep/job-take/" +:+ "worker-1" +:+ "?gpu=A100".
Proof.
  apply (JOB_GET_URL_worker_id sample_runtime
           "https://api.runpod.ai/v2/ep/job-take/" "?gpu=A100").
  - by vm_compute.
  - by vm_compute.
  - by vm_compute.
Defined.

(* ===================================================================== *)
(** * Further properties of the streaming invocation                      *)
(* ===================================================================== *)

Lemma run_job_generator_created {G} R (handler : GenHandler G) (j : job) g :
  is_Some (j !! "id") →
  call handler j = Return g →
  run_job_generator R handler j Created
  = run_job_generator R handler j (AtOutput g).
Proof. intros Hid Hcall. cbn. by rewrite logged_ok, Hcall. Qed.

Lemma run_job_generator_returns {G} R (handler : GenHandler G) (j : job) g :
  is_Some (j !! "id") →
  next handler g = GStop →
  run_job_generator R handler j (AtOutput g) = (Stop, Closed).
Proof.
  intros Hid Hnext. cbn. unfold rjg_loop, rjg_finally. rewrite Hnext.
  by rewrite logged_ok.
Qed.

Lemma run_job_generator_raises {G} R (handler : GenHandler G) (j : job) g e :
  is_Some (j !! "id") →
  next handler g = GRaise e →
  run_job_generator R handler j (AtOutput g)
  = if is_Exception e then (Emit (error_partial R e), AtError)
    else (Escape e, Closed).
Proof.
  intros Hid Hnext. cbn. unfold rjg_loop, rjg_except, rjg_finally.
  rewrite Hnext. destruct (is_Exception e); by rewrite logged_ok.
Qed.

Lemma run_job_generator_after_error {G} R (handler : GenHandler G) (j : job) :
  is_Some (j !! "id") →
  run_job_generator R handler j AtError = (Stop, Closed).
Proof. intros Hid. cbn. unfold rjg_finally. by rewrite logged_ok. Qed.

(** X22.  One step of [run_job_generator], whatever the handler and the
    job: a partial is either [{output: v}], with the generator suspended in
    a loop, or the [{error: ..}] partial, after which the next step ends
    the iteration; a step that ends the iteration or lets an exception out
    closes the generator, and a closed generator stays closed. *)
Theorem run_job_generator_step_shape {G : Type} (R : Runtime)
    (handler : GenHandler G) (j : job) (s : rjg_state G)
    (r : rjg_step) (s' : rjg_state G) :
  run_job_generator R handler j s = (r, s') →
  match r with
  | Emit partial =>
      (∃ v g, partial = {[ "output" := v ]} ∧ s' = AtOutput g) ∨
      (∃ e, partial = error_partial R e ∧ s' = AtError ∧
            run_job_generator R handler j s' = (Stop, Closed))
  | Stop | Escape _ =>
      s' = Closed ∧ run_job_generator R handler j s' = (Stop, Closed)
  end.
Proof.
  intros Hstep.
  destruct (j !! "id") as [i|] eqn:Hj.
  - assert (Hid : is_Some (j !! "id")) by (rewrite Hj; eauto).
    assert (Hloop : ∀ g, rjg_loop R handler j g = (r, s') →
              match r with
              | Emit partial =>
                  (∃ v g, partial = {[ "output" := v ]} ∧ s' = AtOutput g) ∨
                  (∃ e, partial = error_partial R e ∧ s' = AtError ∧
                        run_job_generator R handler j s' = (Stop, Closed))
              | Stop | Escape _ =>
                  s' = Closed ∧ run_job_generator R handler j s' = (Stop, Closed)
              end).
    { intros g Hg.
      change (rjg_loop R handler j g)
        with (run_job_generator R handler j (AtOutput g)) in Hg.
      destruct (next handler g) as [v g'| |e] eqn:Hnext.
      - rewrite (run_job_generator_item R handler j g v g' Hid Hnext) in Hg.
        injection Hg as <- <-. left. eauto.
      - rewrite (run_job_generator_returns R handler j g Hid Hnext) in Hg.
        by injection Hg as <- <-.
      - rewrite (run_job_generator_raises R handler j g e Hid Hnext) in Hg.
        destruct (is_Exception e); injection Hg as <- <-; [|done].
        right. exists e. by rewrite run_job_generator_after_error. }
    destruct s as [|g| |].
    + cbn in Hstep. rewrite logged_ok in Hstep by done.
      destruct (call handler j) as [g|e] eqn:Hcall; [by eapply Hloop|].
      unfold rjg_except, rjg_finally in Hstep.
      destruct (is_Exception e); rewrite logged_ok in Hstep by done;
        injection Hstep as <- <-; [|done].
      right. exists e. by rewrite run_job_generator_after_error.
    + by eapply Hloop.
    + rewrite run_job_generator_after_error in Hstep by done.
      by injection Hstep as <- <-.
    + cbn in Hstep. by injection Hstep as <- <-.
  - assert (Hesc : ∀ k : rjg_step * rjg_state G,
              logged j k = (Escape (KeyError "id"), Closed)).
    { intros k. unfold logged. by rewrite Hj. }
    destruct s as [|g| |]; cbn in Hstep.
    + rewrite Hesc in Hstep. by injection Hstep as <- <-.
    + assert (rjg_loop R handler j g = (Escape (KeyError "id"), Closed)) as Hl.
      { unfold rjg_loop, rjg_except, rjg_finally.
        destruct (next handler g) as [v g'| |e];
          [destruct (isasyncgenfunction handler)| |destruct (is_Exception e)];
          apply Hesc. }
      rewrite Hl in Hstep. by injection Hstep as <- <-.
    + unfold rjg_finally in Hstep. rewrite Hesc in Hstep.
      by injection Hstep as <- <-.
    + by injection Hstep as <- <-.
Qed.

Lemma run_job_generator_step_shape_witness :
  (∃ v g, ({[ "output" := PInt 1 ]} : envelope) = {[ "output" := v ]} ∧
          AtOutput 1%nat = @AtOutput nat g) ∨
  (∃ e, ({[ "output" := PInt 1 ]} : envelope) = error_partial sample_runtime e ∧
        @AtOutput nat 1%nat = AtError ∧
        run_job_generator sample_runtime
          (yields_1_2_then_raises (ValueError "boom")) sample_job
          (AtOutput 1%nat) = (Stop, Closed)).
Proof.
  apply (run_job_generator_step_shape sample_runtime
           (yields_1_2_then_raises (ValueError "boom")) sample_job Created
           (Emit {[ "output" := PInt 1 ]}) (AtOutput 1%nat)).
  by vm_compute.
Defined.

(** X23.  A job without [id] gives the consumer no partial at all: the
    first step of the generator raises [KeyError], before the handler is
    called. *)
Theorem run_job_generator_missing_id {G : Type} (R : Runtime)
    (handler : GenHandler G) (j : job) (fuel : nat) :
  j !! "id" = None →
  (1 ≤ fuel)%nat →
  consume R handler j fuel Created = ([], Some (Some (KeyError "id"))).
Proof.
  intros Hj Hfuel. destruct fuel as [|fuel]; [lia|].
  cbn [consume]. by rewrite run_job_generator_without_id.
Qed.

Lemma run_job_generator_missing_id_witness :
  consume sample_runtime yielding_all {[ "input" := JArr [JInt 1] ]} 5 Created
  = ([], Some (Some (KeyError "id"))).
Proof.
  apply run_job_generator_missing_id; [by apply lookup_singleton_ne | lia].
Defined.

(* ===================================================================== *)
(** * Handlers that write to the job: terminal invocation                 *)
(* ===================================================================== *)

Lemma shared_log_ok (w : Shared.world) :
  Shared.has_id w → Shared.log_job_id w = (Return tt, w).
Proof. intros [v Hv]. unfold Shared.log_job_id. by rewrite Hv. Qed.

Lemma shared_log_fails (w : Shared.world) :
  ¬ Shared.has_id w → Shared.log_job_id w = (Raise (KeyError "id"), w).
Proof.
  intros Hno. unfold Shared.log_job_id.
  destruct (Shared.the_job w !! "id") eqn:Hj; [|done].
  destruct Hno. unfold Shared.has_id. rewrite Hj. eauto.
Qed.

Lemma shared_has_id_dec (w : Shared.world) :
  Shared.has_id w ∨ ¬ Shared.has_id w.
Proof.
  unfold Shared.has_id. destruct (Shared.the_job w !! "id"); [left; eauto|].
  right. by intros [? ?].
Qed.

Lemma shared_on_store_frame {A} (m : heap → outcome A * heap) w r w' :
  Shared.on_store m w = (r, w') →
  Shared.the_job w' = Shared.the_job w ∧
  Shared.instances w' = Shared.instances w.
Proof.
  unfold Shared.on_store. destruct (m (Shared.objects w)) as [r0 h'].
  by intros [= _ <-].
Qed.

Lemma shared_truth_frame v w r w' :
  Shared.truth v w = (r, w') → w' = w.
Proof.
  unfold Shared.truth. destruct (Shared.as_instance w v); by intros [= _ <-].
Qed.

Lemma shared_eq_empty_frame x w r w' :
  Shared.eq_empty x w = (r, w') → w' = w.
Proof.
  unfold Shared.eq_empty. destruct x as [v|]; [|by intros [= _ <-]].
  destruct (Shared.as_instance w v); by intros [= _ <-].
Qed.

(** Normalization writes to the store only: the job and the objects of
    other classes are as before, whether it returns or raises. *)
Lemma shared_normalize_frame v w r w' :
  Shared.normalize v w = (r, w') →
  Shared.the_job w' = Shared.the_job w ∧
  Shared.instances w' = Shared.instances w.
Proof.
  unfold Shared.normalize. unfold Shared.bind at 1. cbv beta iota.
  unfold Shared.bind at 1.
  assert (Htail : ∀ (rr : envelope) w0 r0 w0',
            Shared.bind (Shared.eq_empty (rr !! "output"))
              (λ output_is_empty,
                 Shared.ret (if output_is_empty then delete "output" rr else rr))
              w0 = (r0, w0') → w0' = w0).
  { intros rr w0 r0 w0'. unfold Shared.bind, Shared.ret.
    destruct (Shared.eq_empty (rr !! "output") w0) as [[b|e] w1] eqn:He;
      apply shared_eq_empty_frame in He as ->; by intros [= _ <-]. }
  destruct (as_dict (Shared.objects w) v) as [l|].
  - unfold Shared.bind at 1.
    destruct (Shared.on_store (dict_pop l "error") w) as [[e1|e] w1] eqn:H1;
      apply shared_on_store_frame in H1 as [Hj1 Hi1];
      [|by intros [= _ <-]].
    unfold Shared.bind at 1.
    destruct (Shared.on_store (dict_pop l "refresh_worker") w1)
      as [[r1|e] w2] eqn:H2;
      apply shared_on_store_frame in H2 as [Hj2 Hi2];
      [|intros [= _ <-]; split; congruence].
    unfold Shared.bind at 1.
    destruct (Shared.truth e1 w2) as [[t1|e] w3] eqn:H3;
      apply shared_truth_frame in H3 as ->;
      [|intros [= _ <-]; split; congruence].
    unfold Shared.bind at 1.
    destruct (Shared.truth r1 w2) as [[t2|e] w3] eqn:H4;
      apply shared_truth_frame in H4 as ->;
      [|intros [= _ <-]; split; congruence].
    unfold Shared.ret at 1. intros Hrest.
    apply Htail in Hrest as ->. split; congruence.
  - destruct (isinstance_bool v); unfold Shared.ret at 1; intros Hrest;
      by apply Htail in Hrest as ->.
Qed.

(** When the [try] block ends without an exception the job has its [id]:
    line 121 found it, and nothing after line 121 writes to the job. *)
Lemma shared_try_returned_has_id R handler w env w' :
  Shared.run_job_try R handler w = (Return env, w') → Shared.has_id w'.
Proof.
  unfold Shared.run_job_try. unfold Shared.bind at 1.
  destruct (Shared.resolve handler w) as [[v|e] w1]; [|done].
  unfold Shared.bind at 1.
  destruct (shared_has_id_dec w1) as [Hid|Hno];
    [rewrite shared_log_ok by done | by rewrite shared_log_fails].
  unfold Shared.bind at 1.
  destruct (Shared.normalize v w1) as [[rr|e] w2] eqn:Hn; [|done].
  apply shared_normalize_frame in Hn as [Hj _].
  unfold Shared.bind, Shared.ret.
  destruct (Shared.on_store (check_size R rr) w2) as [[u|e] w3] eqn:Hc;
    [|done].
  apply shared_on_store_frame in Hc as [Hj3 _].
  intros [= _ <-]. unfold Shared.has_id in *. congruence.
Qed.

(** Unfolds the control structure of [Shared.run_job] once line 110 has
    found the [id]. *)
Ltac enter_shared_run_job Hid :=
  unfold Shared.run_job, Shared.bind;
  rewrite (shared_log_ok _ Hid);
  unfold Shared.try_finally, Shared.try_except.

Lemma shared_run_job_without_id R handler w :
  ¬ Shared.has_id w →
  Shared.run_job R handler w = (Raise (KeyError "id"), w).
Proof.
  intros Hno. unfold Shared.run_job, Shared.bind.
  by rewrite shared_log_fails.
Qed.

Lemma shared_run_job_returned R handler w env w' :
  Shared.has_id w →
  Shared.run_job_try R handler w = (Return env, w') →
  Shared.run_job R handler w = (Return env, w').
Proof.
  intros Hid Htry. enter_shared_run_job Hid. rewrite Htry.
  by rewrite (shared_log_ok w' (shared_try_returned_has_id _ _ _ _ _ Htry)).
Qed.

Lemma shared_run_job_caught R handler w e w' :
  Shared.has_id w →
  Shared.run_job_try R handler w = (Raise e, w') →
  is_Exception e = true →
  Shared.has_id w' →
  Shared.run_job R handler w =
    (Return {[ "error" := PStr (json_dumps R (error_info R e)) ]}, w').
Proof.
  intros Hid Htry He Hid'. enter_shared_run_job Hid. rewrite Htry, He.
  unfold Shared.run_job_except, Shared.bind, Shared.ret.
  by rewrite !(shared_log_ok w' Hid').
Qed.

Lemma shared_run_job_lost_id R handler w e w' :
  Shared.has_id w →
  Shared.run_job_try R handler w = (Raise e, w') →
  ¬ Shared.has_id w' →
  Shared.run_job R handler w = (Raise (KeyError "id"), w').
Proof.
  intros Hid Htry Hno. enter_shared_run_job Hid. rewrite Htry.
  destruct (is_Exception e).
  - unfold Shared.run_job_except, Shared.bind.
    by rewrite !(shared_log_fails w' Hno).
  - by rewrite (shared_log_fails w' Hno).
Qed.

Lemma shared_run_job_passed_on R handler w e w' :
  Shared.has_id w →
  Shared.run_job_try R handler w = (Raise e, w') →
  is_Exception e = false →
  Shared.has_id w' →
  Shared.run_job R handler w = (Raise e, w').
Proof.
  intros Hid Htry He Hid'. enter_shared_run_job Hid. rewrite Htry, He.
  by rewrite (shared_log_ok w' Hid').
Qed.

(** The statements of the [try] block that can raise. *)
Lemma shared_try_call_raises R handler w e w' :
  handler w = (Raise e, w') →
  Shared.run_job_try R handler w = (Raise e, w').
Proof.
  intros Hh. unfold Shared.run_job_try, Shared.resolve, Shared.bind.
  by rewrite Hh.
Qed.

Lemma shared_try_await_raises R handler w coroutine w1 e w' :
  handler w = (Return (Shared.Awaitable coroutine), w1) →
  coroutine w1 = (Raise e, w') →
  Shared.run_job_try R handler w = (Raise e, w').
Proof.
  intros Hh Hco. unfold Shared.run_job_try, Shared.resolve, Shared.bind.
  by rewrite Hh, Hco.
Qed.

Lemma shared_try_normalize_raises R handler w v w1 e w2 :
  Shared.resolve handler w = (Return v, w1) →
  Shared.has_id w1 →
  Shared.normalize v w1 = (Raise e, w2) →
  Shared.run_job_try R handler w = (Raise e, w2).
Proof.
  intros Hres Hid Hnorm.
  unfold Shared.run_job_try, Shared.bind at 1. rewrite Hres.
  unfold Shared.bind at 1. rewrite (shared_log_ok w1 Hid).
  unfold Shared.bind at 1. by rewrite Hnorm.
Qed.

Lemma shared_try_size_check_raises R handler w v w1 env w2 e :
  Shared.resolve handler w = (Return v, w1) →
  Shared.has_id w1 →
  Shared.normalize v w1 = (Return env, w2) →
  check_return_size R (Shared.objects w2) env = Some e →
  Shared.run_job_try R handler w = (Raise e, w2).
Proof.
  intros Hres Hid Hnorm Hc.
  unfold Shared.run_job_try, Shared.bind at 1. rewrite Hres.
  unfold Shared.bind at 1. rewrite (shared_log_ok w1 Hid).
  unfold Shared.bind at 1. rewrite Hnorm.
  unfold Shared.bind, Shared.on_store, check_size. rewrite Hc.
  by destruct w2.
Qed.

(** These are all the ways the [try] block raises: the handler's call,
    the await of what it returned, the subscript of line 121, the
    normalization, the size check. *)
Lemma shared_try_raises_iff R handler w e w' :
  Shared.run_job_try R handler w = (Raise e, w') ↔
  handler w = (Raise e, w') ∨
  (∃ coroutine w1,
     handler w = (Return (Shared.Awaitable coroutine), w1) ∧
     coroutine w1 = (Raise e, w')) ∨
  (∃ v w1,
     Shared.resolve handler w = (Return v, w1) ∧
     ((¬ Shared.has_id w1 ∧ e = KeyError "id" ∧ w' = w1) ∨
      (Shared.has_id w1 ∧ Shared.normalize v w1 = (Raise e, w')) ∨
      (Shared.has_id w1 ∧
       ∃ env, Shared.normalize v w1 = (Return env, w') ∧
              check_return_size R (Shared.objects w') env = Some e))).
Proof.
  split.
  - unfold Shared.run_job_try. unfold Shared.bind at 1.
    destruct (Shared.resolve handler w) as [[v|e0] w1] eqn:Hres.
    + intros Htry. right. right. exists v, w1. split; [done|].
      revert Htry. unfold Shared.bind at 1.
      destruct (shared_has_id_dec w1) as [Hid|Hno];
        [rewrite shared_log_ok by done
        | rewrite shared_log_fails by done; intros [= <- <-]; by left].
      unfold Shared.bind at 1.
      destruct (Shared.normalize v w1) as [[rr|e1] w2] eqn:Hn;
        [|intros [= <- <-]; right; by left].
      unfold Shared.bind, Shared.ret, Shared.on_store, check_size.
      destruct (check_return_size R (Shared.objects w2) rr) as [e2|] eqn:Hc;
        [|done].
      intros [= <- <-]. right. right. split; [done|].
      destruct w2 as [j2 h2 i2]. cbn [Shared.the_job Shared.objects
                                      Shared.instances] in *.
      by exists rr.
    + intros [= <- <-]. revert Hres.
      unfold Shared.resolve, Shared.bind.
      destruct (handler w) as [[[v|co]|e1] w2] eqn:Hh.
      * done.
      * intros Hco. right. left. by exists co, w2.
      * intros [= <- <-]. by left.
  - intros [Hcall | [(co & w1 & Hh & Hco) | (v & w1 & Hres & Hcases)]].
    + by apply shared_try_call_raises.
    + by eapply shared_try_await_raises.
    + destruct Hcases as [(Hno & -> & ->) | [(Hid & Hn) | (Hid & env & Hn & Hc)]].
      * unfold Shared.run_job_try, Shared.bind at 1. rewrite Hres.
        unfold Shared.bind at 1. by rewrite shared_log_fails.
      * by eapply shared_try_normalize_raises.
      * by eapply shared_try_size_check_raises.
Qed.

(** C2, as the code has it.  For a job that carries an [id] when [run_job]
    starts: when a statement of the [try] block (the handler's call, the
    await of what it returned, the normalization, the size check) raises an
    exception that is an [Exception], and the job still has its [id] when
    the [except] clause runs, the exception is caught; [run_job] returns,
    and the envelope it returns has the [error] field alone, whose value
    is the serialized record of the exception's type, its message, the
    traceback, the host, the worker and the version.  It has no [output]
    field. *)
Theorem run_job_fault_envelope (R : Runtime) (handler : Shared.Handler)
    (w : Shared.world) (e : exn) (w' : Shared.world) :
  Shared.has_id w →
  Shared.run_job_try R handler w = (Raise e, w') →
  is_Exception e = true →
  Shared.has_id w' →
  ∃ env : envelope,
    Shared.run_job R handler w = (Return env, w') ∧
    env =
      {[ "error" :=
           PStr (json_dumps R
             [ ("error_type", "<class '" +:+ exn_type e +:+ "'>");
               ("error_message", exn_message e);
               ("error_traceback", format_exc R e);
               ("hostname",
                 default "unknown" (environ R !! "RUNPOD_POD_HOSTNAME"));
               ("worker_id", default "unknown" (environ R !! "RUNPOD_POD_ID"));
               ("runpod_version", runpod_version R) ]) ]} ∧
    env !! "output" = None.
Proof.
  intros Hid Htry He Hid'. eexists. split; [|split; [reflexivity|done]].
  by apply shared_run_job_caught.
Qed.

Lemma run_job_fault_envelope_witness :
  (∃ env : envelope,
     Shared.run_job rejecting_runtime
       (Shared.ret (Shared.Awaitable (Shared.ret (PRef 1%positive))))
       (Shared.plain_world sample_job (store_of {[ "result" := PInt 1 ]}))
     = (Return env,
        Shared.plain_world sample_job (store_of {[ "result" := PInt 1 ]})) ∧
     env !! "output" = None ∧ is_Some (env !! "error")) ∧
  (∃ env : envelope,
     Shared.run_job sample_runtime
       (Shared.ret (Shared.Plain (PRef 1%positive)))
       (Shared.mk_world sample_job
          (store_of {[ "error" := PRef 9%positive; "result" := PInt 1 ]})
          {[ 9%positive := ambiguous ]})
     = (Return env,
        Shared.mk_world sample_job (store_of {[ "result" := PInt 1 ]})
          {[ 9%positive := ambiguous ]}) ∧
     env !! "output" = None ∧ is_Some (env !! "error")).
Proof.
  split.
  - destruct (run_job_fault_envelope rejecting_runtime
                (Shared.ret (Shared.Awaitable (Shared.ret (PRef 1%positive))))
                (Shared.plain_world sample_job (store_of {[ "result" := PInt 1 ]}))
                (ValueError "too large")
                (Shared.plain_world sample_job
                   (store_of {[ "result" := PInt 1 ]})))
      as (env & Hrun & Henv & Hout).
    + by eexists.
    + by vm_compute.
    + reflexivity.
    + by eexists.
    + exists env. split; [done|]. split; [done|]. rewrite Henv.
      rewrite lookup_singleton_eq. by eexists.
  - destruct (run_job_fault_envelope sample_runtime
                (Shared.ret (Shared.Plain (PRef 1%positive)))
                (Shared.mk_world sample_job
                   (store_of {[ "error" := PRef 9%positive; "result" := PInt 1 ]})
                   {[ 9%positive := ambiguous ]})
                (ValueError "The truth value is ambiguous")
                (Shared.mk_world sample_job (store_of {[ "result" := PInt 1 ]})
                   {[ 9%positive := ambiguous ]}))
      as (env & Hrun & Henv & Hout).
    + by eexists.
    + by vm_compute.
    + reflexivity.
    + by eexists.
    + exists env. split; [done|]. split; [done|]. rewrite Henv.
      rewrite lookup_singleton_eq. by eexists.
Defined.

(** C2 as stated fails: an exception that is not an [Exception], here
    [KeyboardInterrupt] raised by the handler, passes the [except] clause
    and leaves [run_job]. *)
Lemma run_job_KeyboardInterrupt_escapes :
  Shared.run_job sample_runtime (Shared.raise KeyboardInterrupt)
    (Shared.plain_world sample_job ∅)
  = (Raise KeyboardInterrupt, Shared.plain_world sample_job ∅).
Proof. by vm_compute. Qed.

(** For a handler that leaves the job alone, the job is a value and
    [run_job] of the first part is what [Shared.run_job] does. *)
Lemma as_instance_plain (j : job) h v :
  Shared.as_instance (Shared.plain_world j h) v = None.
Proof.
  unfold Shared.as_instance, Shared.plain_world.
  cbn [Shared.objects Shared.instances].
  destruct v as [| | | | |l]; try reflexivity.
  destruct (h !! l); [reflexivity | apply lookup_empty].
Qed.

Lemma normalize_agrees v (j : job) h :
  Shared.normalize v (Shared.plain_world j h)
  = let '(r, h') := normalize v h in (r, Shared.plain_world j h').
Proof.
  assert (Htruth : ∀ x h0, Shared.truth x (Shared.plain_world j h0)
                           = (Return (truthy h0 x), Shared.plain_world j h0)).
  { intros x h0. unfold Shared.truth. by rewrite as_instance_plain. }
  assert (Heq : ∀ x h0, Shared.eq_empty x (Shared.plain_world j h0)
                        = (Return (eq_empty_dict h0 x), Shared.plain_world j h0)).
  { intros x h0. unfold Shared.eq_empty. destruct x as [x|]; [|reflexivity].
    by rewrite as_instance_plain. }
  assert (Hpop : ∀ l key h0,
            Shared.on_store (dict_pop l key) (Shared.plain_world j h0)
            = let '(r, h') := dict_pop l key h0 in (r, Shared.plain_world j h')).
  { intros l key h0. reflexivity. }
  unfold Shared.normalize, normalize.
  unfold Shared.bind at 1. unfold bind at 1. cbv beta iota.
  change (Shared.objects (Shared.plain_world j h)) with h.
  unfold Shared.bind at 1. unfold bind at 1.
  destruct (as_dict h v) as [l|].
  - unfold Shared.bind at 1. unfold bind at 1. rewrite Hpop.
    destruct (dict_pop l "error" h) as [[e1|e] h1]; [|reflexivity].
    unfold Shared.bind at 1. unfold bind at 1. rewrite Hpop.
    destruct (dict_pop l "refresh_worker" h1) as [[r1|e] h2]; [|reflexivity].
    unfold Shared.bind at 1. rewrite Htruth.
    unfold Shared.bind at 1. rewrite Htruth.
    unfold Shared.ret at 1. unfold Shared.bind, Shared.ret. rewrite Heq.
    by destruct (eq_empty_dict h2 _).
  - destruct (isinstance_bool v); unfold Shared.ret at 1; unfold ret at 1;
      unfold Shared.bind, Shared.ret; rewrite Heq;
      by destruct (eq_empty_dict h _).
Qed.

Lemma resolve_agrees handler (j : job) h :
  Shared.resolve (lift_handler handler) (Shared.plain_world j h)
  = let '(r, h') := resolve handler j h in (r, Shared.plain_world j h').
Proof.
  unfold Shared.resolve, resolve, Shared.bind, bind, lift_handler,
    lift_coroutine, Shared.ret, ret, Shared.plain_world.
  cbn [Shared.the_job Shared.objects Shared.instances].
  destruct (handler j h) as [[[v|co]|e] h1]; reflexivity.
Qed.

Lemma run_job_try_agrees R handler (j : job) h :
  Shared.run_job_try R (lift_handler handler) (Shared.plain_world j h)
  = let '(r, h') := run_job_try R handler j h in (r, Shared.plain_world j h').
Proof.
  unfold Shared.run_job_try, run_job_try.
  unfold Shared.bind at 1. unfold bind at 1. rewrite resolve_agrees.
  destruct (resolve handler j h) as [[v|e] h1]; [|reflexivity].
  unfold Shared.bind at 1. unfold bind at 1.
  unfold Shared.log_job_id, log_job_id, ret, raise.
  change (Shared.the_job (Shared.plain_world j h1)) with j.
  destruct (j !! "id"); [|reflexivity].
  unfold Shared.bind at 1. unfold bind at 1. rewrite normalize_agrees.
  destruct (normalize v h1) as [[rr|e] h2]; [|reflexivity].
  unfold Shared.bind, bind, Shared.on_store, Shared.ret, Shared.plain_world.
  cbn [Shared.the_job Shared.objects Shared.instances].
  destruct (check_size R rr h2) as [[u|e] h3]; reflexivity.
Qed.

Lemma run_job_agrees R handler (j : job) h :
  Shared.run_job R (lift_handler handler) (Shared.plain_world j h)
  = let '(r, h') := run_job R handler j h in (r, Shared.plain_world j h').
Proof.
  unfold Shared.run_job, run_job.
  unfold Shared.bind at 1. unfold bind at 1.
  unfold Shared.log_job_id at 1. unfold log_job_id at 1. unfold ret, raise.
  change (Shared.the_job (Shared.plain_world j h)) with j.
  destruct (j !! "id") as [i|] eqn:Hj; [|reflexivity].
  unfold Shared.try_finally, try_finally, Shared.try_except, try_except.
  rewrite run_job_try_agrees.
  destruct (run_job_try R handler j h) as [[env|e] h1].
  - unfold Shared.log_job_id, log_job_id.
    change (Shared.the_job (Shared.plain_world j h1)) with j.
    rewrite Hj. reflexivity.
  - destruct (is_Exception e);
      unfold Shared.run_job_except, run_job_except, Shared.bind, bind,
        Shared.log_job_id, log_job_id, Shared.ret, ret, raise;
      change (Shared.the_job (Shared.plain_world j h1)) with j;
      rewrite !Hj;
      change (Shared.the_job (Shared.plain_world j h1)) with j;
      rewrite ?Hj; reflexivity.
Qed.

(** X2.  [run_job] raises in three cases only: the job has no [id] when it
    starts, and the exception is that [KeyError]; an exception that is not
    an [Exception] came up inside the [try] block while the job kept its
    [id], and it is that one; an exception came up inside the [try] block
    of a handler that took the [id] off the job, and it is the [KeyError]
    of the logger call that follows. *)
Theorem run_job_raises_iff (R : Runtime) (handler : Shared.Handler)
    (w : Shared.world) (x : exn) (w' : Shared.world) :
  Shared.run_job R handler w = (Raise x, w') ↔
  (¬ Shared.has_id w ∧ x = KeyError "id" ∧ w' = w) ∨
  (Shared.has_id w ∧
   ∃ e, Shared.run_job_try R handler w = (Raise e, w') ∧
        ((Shared.has_id w' ∧ is_Exception e = false ∧ x = e) ∨
         (¬ Shared.has_id w' ∧ x = KeyError "id"))).
Proof.
  split.
  - intros Hrun. destruct (shared_has_id_dec w) as [Hid|Hno].
    + right. split; [done|].
      destruct (Shared.run_job_try R handler w) as [[env|e] w1] eqn:Htry.
      * by rewrite (shared_run_job_returned _ _ _ _ _ Hid Htry) in Hrun.
      * destruct (shared_has_id_dec w1) as [Hid1|Hno1].
        -- destruct (is_Exception e) eqn:He.
           { by rewrite (shared_run_job_caught _ _ _ _ _ Hid Htry He Hid1)
               in Hrun. }
           rewrite (shared_run_job_passed_on _ _ _ _ _ Hid Htry He Hid1)
             in Hrun.
           injection Hrun as <- <-. exists e. split; [done|]. by left.
        -- rewrite (shared_run_job_lost_id _ _ _ _ _ Hid Htry Hno1) in Hrun.
           injection Hrun as <- <-. exists e. split; [done|]. by right.
    + left. rewrite shared_run_job_without_id in Hrun by done.
      by injection Hrun as <- <-.
  - intros [(Hno & -> & ->) | (Hid & e & Htry & [(Hid' & He & ->) | (Hno & ->)])].
    + by apply shared_run_job_without_id.
    + by apply shared_run_job_passed_on.
    + by eapply shared_run_job_lost_id.
Qed.

Lemma run_job_raises_iff_witness :
  Shared.run_job sample_runtime
    (forgetting_id (Shared.raise (ValueError "boom")))
    (Shared.plain_world sample_job ∅)
  = (Raise (KeyError "id"), Shared.plain_world (delete "id" sample_job) ∅).
Proof.
  apply (proj2 (run_job_raises_iff sample_runtime
                  (forgetting_id (Shared.raise (ValueError "boom")))
                  (Shared.plain_world sample_job ∅) (KeyError "id")
                  (Shared.plain_world (delete "id" sample_job) ∅))).
  right. split; [by eexists|]. exists (ValueError "boom").
  split; [reflexivity|]. right. split; [|done].
  intros [i Hi]. cbn in Hi. by rewrite lookup_delete_eq in Hi.
Defined.

(** X3.  For a job that carries an [id] when [run_job] starts: when every
    exception the [try] block can raise is an [Exception] and leaves the
    job its [id], [run_job] returns an envelope. *)
Theorem run_job_returns_envelope (R : Runtime) (handler : Shared.Handler)
    (w : Shared.world) :
  Shared.has_id w →
  (∀ e w', Shared.run_job_try R handler w = (Raise e, w') →
           is_Exception e = true ∧ Shared.has_id w') →
  ∃ env w', Shared.run_job R handler w = (Return env, w').
Proof.
  intros Hid Hexc.
  destruct (Shared.run_job_try R handler w) as [[env|e] w1] eqn:Htry.
  - rewrite (shared_run_job_returned _ _ _ _ _ Hid Htry). eauto.
  - destruct (Hexc e w1 eq_refl) as [He Hid1].
    rewrite (shared_run_job_caught _ _ _ _ _ Hid Htry He Hid1). eauto.
Qed.

Lemma run_job_returns_envelope_witness :
  ∃ env w',
    Shared.run_job sample_runtime (Shared.raise (ValueError "boom"))
      (Shared.plain_world sample_job ∅)
    = (Return env, w').
Proof.
  apply (run_job_returns_envelope sample_runtime
           (Shared.raise (ValueError "boom")) (Shared.plain_world sample_job ∅)).
  - by eexists.
  - intros e w' [= <- <-]. split; [reflexivity | by eexists].
Defined.

(** X8.  A [def] handler and an [async def] handler with the same body,
    which returns a value that is not itself awaitable, are not told apart
    as long as the body does not raise an [Exception]:
    [run_job] gives the same result, the same job and the same store for
    both.  (An [Exception] of the body surfaces at line 114 for the one and
    at line 116 for the other; the tracebacks of the two runs then name
    different lines, and the two envelopes are not compared here.) *)
Theorem run_job_sync_async_agree (R : Runtime) (body : Shared.M pyval)
    (w : Shared.world) :
  (∀ e w', body w = (Raise e, w') → is_Exception e = false) →
  Shared.run_job R (Shared.async_handler body) w
  = Shared.run_job R (Shared.sync_handler body) w.
Proof.
  intros _.
  assert (Hres : Shared.resolve (Shared.async_handler body) w
                 = Shared.resolve (Shared.sync_handler body) w).
  { unfold Shared.resolve, Shared.async_handler, Shared.sync_handler,
      Shared.bind, Shared.ret.
    by destruct (body w) as [[v|e] w1]. }
  assert (Htry : Shared.run_job_try R (Shared.async_handler body) w
                 = Shared.run_job_try R (Shared.sync_handler body) w).
  { unfold Shared.run_job_try, Shared.bind at 1. unfold Shared.bind at 4.
    by rewrite Hres. }
  unfold Shared.run_job, Shared.bind, Shared.try_finally, Shared.try_except.
  destruct (shared_has_id_dec w) as [Hid|Hno];
    [rewrite (shared_log_ok w Hid) | by rewrite (shared_log_fails w Hno)].
  by rewrite Htry.
Qed.

Lemma run_job_sync_async_agree_witness :
  Shared.run_job sample_runtime (Shared.async_handler (Shared.ret (PInt 5)))
    (Shared.plain_world sample_job ∅)
  = Shared.run_job sample_runtime (Shared.sync_handler (Shared.ret (PInt 5)))
      (Shared.plain_world sample_job ∅).
Proof.
  apply (run_job_sync_async_agree sample_runtime (Shared.ret (PInt 5))
           (Shared.plain_world sample_job ∅)).
  intros e w' [=].
Defined.

(** X13.  A job that came from a single-object response carries an [id]:
    [run_job] on it reaches the handler, and returns an envelope whenever
    what the [try] block can raise is an [Exception] that leaves the job
    its [id]. *)
Theorem single_job_runs (R : Runtime) (job_list : JobsQueue)
    (session : ClientSession) (num_jobs : Z) (resp : response)
    (fields : job) (handler : Shared.Handler) (h : heap) :
  session (_job_get_url R job_list num_jobs) = Return resp →
  status resp = 200 →
  response_json resp = Return (JObj fields) →
  get_job R job_list session num_jobs = Return (Some [JObj fields]) →
  (∀ e w', Shared.run_job_try R handler (Shared.plain_world fields h)
             = (Raise e, w') →
           is_Exception e = true ∧ Shared.has_id w') →
  Shared.has_id (Shared.plain_world fields h) ∧
  ∃ env w',
    Shared.run_job R handler (Shared.plain_world fields h) = (Return env, w').
Proof.
  intros Hs Hst Hj Hget Hexc.
  assert (Hid : Shared.has_id (Shared.plain_world fields h)).
  { unfold Shared.has_id. cbn. unfold get_job in Hget.
    rewrite (get_job_try_200 _ _ _ _ resp Hs Hst), Hj in Hget.
    destruct (bool_decide (fields !! "id" = None)) eqn:Hid;
      [by cbn in Hget|].
    apply bool_decide_eq_false in Hid. by rewrite <- not_eq_None_Some. }
  split; [done|].
  destruct (Shared.run_job_try R handler (Shared.plain_world fields h))
    as [[env|e] w1] eqn:Htry.
  - rewrite (shared_run_job_returned _ _ _ _ _ Hid Htry). eauto.
  - destruct (Hexc e w1 eq_refl) as [He Hid1].
    rewrite (shared_run_job_caught _ _ _ _ _ Hid Htry He Hid1). eauto.
Qed.

Lemma single_job_runs_witness :
  Shared.has_id (Shared.plain_world sample_job ∅) ∧
  ∃ env w',
    Shared.run_job sample_runtime (Shared.raise (ValueError "boom"))
      (Shared.plain_world sample_job ∅)
    = (Return env, w').
Proof.
  apply (single_job_runs sample_runtime [] (respond 200 (JObj sample_job)) 1
           (mk_response 200 (Return (JObj sample_job))) sample_job
           (Shared.raise (ValueError "boom")) ∅).
  - reflexivity.
  - reflexivity.
  - reflexivity.
  - by vm_compute.
  - intros e w' [= <- <-]. split; [reflexivity | by eexists].
Defined.

(** X24.  When the [try] block raises, whatever the exception, and the
    handler has taken the [id] off the job by then, [run_job] returns no
    envelope: the logger call that follows (line 154 in the [except]
    clause, line 159 in the [finally] clause) raises [KeyError], and that
    is what leaves [run_job]. *)
Theorem run_job_lost_id_raises (R : Runtime) (handler : Shared.Handler)
    (w : Shared.world) (e : exn) (w' : Shared.world) :
  Shared.has_id w →
  Shared.run_job_try R handler w = (Raise e, w') →
  ¬ Shared.has_id w' →
  Shared.run_job R handler w = (Raise (KeyError "id"), w').
Proof.
  intros Hid Htry Hno. by apply (shared_run_job_lost_id R handler w e w').
Qed.

Lemma run_job_lost_id_raises_witness :
  Shared.run_job sample_runtime
    (forgetting_id (Shared.raise (ValueError "boom")))
    (Shared.plain_world sample_job ∅)
  = (Raise (KeyError "id"), Shared.plain_world (delete "id" sample_job) ∅).
Proof.
  apply (run_job_lost_id_raises sample_runtime
           (forgetting_id (Shared.raise (ValueError "boom")))
           (Shared.plain_world sample_job ∅) (ValueError "boom")
           (Shared.plain_world (delete "id" sample_job) ∅)).
  - by eexists.
  - reflexivity.
  - intros [i Hi]. cbn in Hi. by rewrite lookup_delete_eq in Hi.
Defined.

(* ===================================================================== *)
(** * Handlers that write to the job: streaming invocation                *)
(* ===================================================================== *)

Lemma shared_logged_ok {G} (w : Shared.world) (k : Shared.rjg_result G) :
  Shared.has_id w → Shared.logged w k = k.
Proof. intros [v Hv]. unfold Shared.logged. by rewrite Hv. Qed.

Lemma shared_logged_fails {G} (w : Shared.world) (k : Shared.rjg_result G) :
  ¬ Shared.has_id w →
  Shared.logged w k = ((Escape (KeyError "id"), Closed), w).
Proof.
  intros Hno. unfold Shared.logged.
  destruct (Shared.the_job w !! "id") eqn:Hj; [|done].
  destruct Hno. unfold Shared.has_id. rewrite Hj. eauto.
Qed.

(** For a generator that leaves the job alone, [run_job_generator] of the
    first part is what [Shared.run_job_generator] does. *)
Lemma run_job_generator_agrees {G} R (handler : GenHandler G) (j : job) h s :
  Shared.run_job_generator R (lift_gen_handler handler) s (Shared.plain_world j h)
  = (run_job_generator R handler j s, Shared.plain_world j h).
Proof.
  unfold Shared.plain_world.
  assert (Hloop : ∀ g,
            Shared.rjg_loop R (lift_gen_handler handler) g (Shared.mk_world j h ∅)
            = (rjg_loop R handler j g, Shared.mk_world j h ∅)).
  { intros g. unfold Shared.rjg_loop, rjg_loop, Shared.rjg_except, rjg_except,
      Shared.rjg_finally, rjg_finally, Shared.logged, logged, lift_gen_handler.
    cbn [Shared.next Shared.isasyncgenfunction Shared.the_job].
    destruct (next handler g) as [v g'| |e];
      [destruct (isasyncgenfunction handler)| |destruct (is_Exception e)];
      by destruct (j !! "id"). }
  destruct s as [|g| |]; cbn [Shared.run_job_generator run_job_generator].
  - unfold Shared.logged at 1. unfold logged at 1.
    cbn [Shared.the_job]. destruct (j !! "id") eqn:Hj; [|done].
    unfold lift_gen_handler at 1. cbn [Shared.call Shared.the_job].
    destruct (call handler j) as [g|e]; [apply Hloop|].
    unfold Shared.rjg_except, rjg_except, Shared.rjg_finally, rjg_finally,
      Shared.logged, logged. cbn [Shared.the_job].
    destruct (is_Exception e); by rewrite Hj.
  - apply Hloop.
  - unfold Shared.rjg_finally, rjg_finally, Shared.logged, logged.
    cbn [Shared.the_job]. by destruct (j !! "id").
  - done.
Qed.

Lemma shared_generator_created {G} R (handler : Shared.GenHandler G) w g w1 :
  Shared.has_id w →
  Shared.call handler w = (Return g, w1) →
  Shared.run_job_generator R handler Created w
  = Shared.run_job_generator R handler (AtOutput g) w1.
Proof.
  intros Hid Hcall. cbn [Shared.run_job_generator].
  by rewrite shared_logged_ok, Hcall.
Qed.

Lemma shared_generator_item {G} R (handler : Shared.GenHandler G) g w v g' w' :
  Shared.next handler g w = (GYield v g', w') →
  Shared.has_id w' →
  Shared.run_job_generator R handler (AtOutput g) w
  = ((Emit {[ "output" := v ]}, AtOutput g'), w').
Proof.
  intros Hnext Hid. cbn [Shared.run_job_generator]. unfold Shared.rjg_loop.
  rewrite Hnext.
  destruct (Shared.isasyncgenfunction handler); by rewrite shared_logged_ok.
Qed.

Lemma shared_generator_returns {G} R (handler : Shared.GenHandler G) g w w' :
  Shared.next handler g w = (GStop, w') →
  Shared.has_id w' →
  Shared.run_job_generator R handler (AtOutput g) w = ((Stop, Closed), w').
Proof.
  intros Hnext Hid. cbn [Shared.run_job_generator].
  unfold Shared.rjg_loop, Shared.rjg_finally. rewrite Hnext.
  by rewrite shared_logged_ok.
Qed.

Lemma shared_generator_raises {G} R (handler : Shared.GenHandler G) g w e w' :
  Shared.next handler g w = (GRaise e, w') →
  Shared.has_id w' →
  Shared.run_job_generator R handler (AtOutput g) w
  = if is_Exception e then ((Emit (error_partial R e), AtError), w')
    else ((Escape e, Closed), w').
Proof.
  intros Hnext Hid. cbn [Shared.run_job_generator].
  unfold Shared.rjg_loop, Shared.rjg_except, Shared.rjg_finally.
  rewrite Hnext. destruct (is_Exception e); by rewrite shared_logged_ok.
Qed.

Lemma shared_generator_after_error {G} R (handler : Shared.GenHandler G) w :
  Shared.has_id w →
  Shared.run_job_generator R handler AtError w = ((Stop, Closed), w).
Proof.
  intros Hid. cbn [Shared.run_job_generator]. unfold Shared.rjg_finally.
  by rewrite shared_logged_ok.
Qed.

(** C4, as the code has it.  For a job that carries an [id] at every
    logger call of the run, and a streaming handler whose generator yields
    1, then 2, and then raises an exception that is an [Exception]:
    [run_job_generator] gives [{output: 1}], then [{output: 2}], then one
    [{error: ..}] partial with the message and the traceback, and then ends
    and stays ended; a consumer receives exactly these three partials in
    this order, the first two as they were emitted. *)
Theorem run_job_generator_fault_after_two {G : Type} (R : Runtime)
    (handler : Shared.GenHandler G) (g0 g1 g2 : G) (e : exn)
    (w0 w1 w2 w3 w4 : Shared.world) :
  Shared.has_id w0 →
  Shared.call handler w0 = (Return g0, w1) →
  Shared.next handler g0 w1 = (GYield (PInt 1) g1, w2) →
  Shared.has_id w2 →
  Shared.next handler g1 w2 = (GYield (PInt 2) g2, w3) →
  Shared.has_id w3 →
  Shared.next handler g2 w3 = (GRaise e, w4) →
  Shared.has_id w4 →
  is_Exception e = true →
  let terminal : envelope :=
    {[ "error" :=
         PStr ("handler: " +:+ exn_message e +:+ " "
               +:+ String "010"%char "traceback: " +:+ format_exc R e) ]} in
  Shared.run_job_generator R handler Created w0
    = ((Emit {[ "output" := PInt 1 ]}, AtOutput g1), w2) ∧
  Shared.run_job_generator R handler (AtOutput g1) w2
    = ((Emit {[ "output" := PInt 2 ]}, AtOutput g2), w3) ∧
  Shared.run_job_generator R handler (AtOutput g2) w3
    = ((Emit terminal, AtError), w4) ∧
  Shared.run_job_generator R handler AtError w4 = ((Stop, Closed), w4) ∧
  Shared.run_job_generator R handler Closed w4 = ((Stop, Closed), w4) ∧
  ∀ fuel, (4 ≤ fuel)%nat →
    Shared.consume R handler fuel Created w0
      = ([ {[ "output" := PInt 1 ]}; {[ "output" := PInt 2 ]}; terminal ],
         Some None).
Proof.
  intros Hid0 Hcall H0 Hid2 H1 Hid3 H2 Hid4 He terminal.
  assert (S0 : Shared.run_job_generator R handler Created w0
               = ((Emit {[ "output" := PInt 1 ]}, AtOutput g1), w2)).
  { rewrite (shared_generator_created R handler w0 g0 w1 Hid0 Hcall).
    by apply shared_generator_item. }
  assert (S1 := shared_generator_item R handler g1 w2 _ g2 w3 H1 Hid3).
  assert (S2 : Shared.run_job_generator R handler (AtOutput g2) w3
               = ((Emit terminal, AtError), w4)).
  { rewrite (shared_generator_raises R handler g2 w3 e w4 H2 Hid4).
    by rewrite He. }
  assert (S3 := shared_generator_after_error R handler w4 Hid4).
  repeat (split; [done|]).
  intros fuel Hfuel.
  do 4 (destruct fuel as [|fuel]; [lia|]).
  cbn [Shared.consume]. rewrite S0. cbn [Shared.consume]. rewrite S1.
  cbn [Shared.consume]. rewrite S2. cbn [Shared.consume]. by rewrite S3.
Qed.

Lemma run_job_generator_fault_after_two_witness :
  Shared.consume sample_runtime
    (scripted [PInt 1; PInt 2] (λ w, (GRaise (ValueError "boom"), w)))
    10 Created (Shared.plain_world sample_job ∅)
  = ([ {[ "output" := PInt 1 ]}; {[ "output" := PInt 2 ]};
       {[ "error" :=
            PStr ("handler: boom "
                  +:+ String "010"%char "traceback: "
                  +:+ "Traceback (most recent call last): ValueError") ]} ],
     Some None).
Proof.
  destruct (run_job_generator_fault_after_two sample_runtime
              (scripted [PInt 1; PInt 2] (λ w, (GRaise (ValueError "boom"), w)))
              [PInt 1; PInt 2] [PInt 2] [] (ValueError "boom")
              (Shared.plain_world sample_job ∅) (Shared.plain_world sample_job ∅)
              (Shared.plain_world sample_job ∅) (Shared.plain_world sample_job ∅)
              (Shared.plain_world sample_job ∅))
    as (_ & _ & _ & _ & _ & Hall).
  - by eexists.
  - reflexivity.
  - reflexivity.
  - by eexists.
  - reflexivity.
  - by eexists.
  - reflexivity.
  - by eexists.
  - reflexivity.
  - apply (Hall 10%nat). lia.
Defined.

(** C4 as stated fails: when what the generator raises after its two items
    is not an [Exception], here [KeyboardInterrupt], there is no third
    partial and the exception leaves [run_job_generator]. *)
Lemma run_job_generator_KeyboardInterrupt_escapes :
  Shared.consume sample_runtime
    (scripted [PInt 1; PInt 2] (λ w, (GRaise KeyboardInterrupt, w)))
    10 Created (Shared.plain_world sample_job ∅)
  = ([ {[ "output" := PInt 1 ]}; {[ "output" := PInt 2 ]} ],
     Some (Some KeyboardInterrupt)).
Proof. by vm_compute. Qed.

(** A generator that takes the [id] off the job before it raises gets no
    error partial either: the logger call of the [except] clause raises
    [KeyError]. *)
Lemma run_job_generator_lost_id_escapes :
  Shared.consume sample_runtime
    (scripted [PInt 1; PInt 2] (pop_id_and_raise (ValueError "boom")))
    10 Created (Shared.plain_world sample_job ∅)
  = ([ {[ "output" := PInt 1 ]}; {[ "output" := PInt 2 ]} ],
     Some (Some (KeyError "id"))).
Proof. by vm_compute. Qed.

(** X25.  Whatever a step of the generator does (it yields an item, it
    returns, it raises), when the job has no [id] after it the step of
    [run_job_generator] gives no partial, neither for the item nor for the
    exception: the [KeyError] of the logger call leaves the generator, and
    the generator is closed. *)
Theorem run_job_generator_lost_id {G : Type} (R : Runtime)
    (handler : Shared.GenHandler G) (g : G) (w : Shared.world)
    (step : gen_step G) (w' : Shared.world) :
  Shared.next handler g w = (step, w') →
  ¬ Shared.has_id w' →
  Shared.run_job_generator R handler (AtOutput g) w
  = ((Escape (KeyError "id"), Closed), w') ∧
  Shared.run_job_generator R handler Closed w' = ((Stop, Closed), w').
Proof.
  intros Hnext Hno. split; [|reflexivity].
  cbn [Shared.run_job_generator].
  unfold Shared.rjg_loop, Shared.rjg_except, Shared.rjg_finally.
  rewrite Hnext. destruct step as [v g'| |e].
  - destruct (Shared.isasyncgenfunction handler);
      by rewrite shared_logged_fails.
  - by rewrite shared_logged_fails.
  - destruct (is_Exception e); by rewrite shared_logged_fails.
Qed.

Lemma run_job_generator_lost_id_witness :
  Shared.run_job_generator sample_runtime
    (scripted [] (pop_id_and_raise (ValueError "boom")))
    (AtOutput []) (Shared.plain_world sample_job ∅)
  = ((Escape (KeyError "id"), Closed),
     Shared.plain_world (delete "id" sample_job) ∅) ∧
  Shared.run_job_generator sample_runtime
    (scripted [] (pop_id_and_raise (ValueError "boom")))
    Closed (Shared.plain_world (delete "id" sample_job) ∅)
  = ((Stop, Closed), Shared.plain_world (delete "id" sample_job) ∅).
Proof.
  apply (run_job_generator_lost_id sample_runtime
           (scripted [] (pop_id_and_raise (ValueError "boom")))
           [] (Shared.plain_world sample_job ∅)
           (GRaise (ValueError "boom"))
           (Shared.plain_world (delete "id" sample_job) ∅)).
  - reflexivity.
  - intros [i Hi]. cbn in Hi. by rewrite lookup_delete_eq in Hi.
Defined.

(** What a consumer receives from a generator that yields [items] and
    ends as [ending] says. *)
Lemma shared_consume_produces {G} R (handler : Shared.GenHandler G)
    g w items ending w' :
  Shared.produces handler g w items ending w' →
  ∀ fuel, (length items + 2 ≤ fuel)%nat →
    Shared.consume R handler fuel (AtOutput g) w
    = match ending with
      | Shared.Returns => (map output_partial items, Some None)
      | Shared.Raises e =>
          if is_Exception e
          then (map output_partial items ++ [error_partial R e], Some None)
          else (map output_partial items, Some (Some e))
      end.
Proof.
  intros Hprod.
  induction Hprod
    as [g w w' Hnext Hid | g w e w' Hnext Hid
        | g w v g' w' items ending w'' Hnext Hid _ IH];
    intros fuel Hfuel.
  - destruct fuel as [|fuel]; [cbn in Hfuel; lia|].
    cbn [Shared.consume]. by rewrite (shared_generator_returns R handler g w w').
  - do 2 (destruct fuel as [|fuel]; [cbn in Hfuel; lia|]).
    cbn [Shared.consume].
    rewrite (shared_generator_raises R handler g w e w' Hnext Hid).
    destruct (is_Exception e); [|done].
    cbn [Shared.consume]. by rewrite shared_generator_after_error.
  - destruct fuel as [|fuel]; [cbn in Hfuel; lia|].
    cbn [Shared.consume].
    rewrite (shared_generator_item R handler g w v g' w' Hnext Hid).
    rewrite IH by (cbn in Hfuel; lia).
    destruct ending as [|e]; [done|]. by destruct (is_Exception e).
Qed.

Lemma shared_consume_created {G} R (handler : Shared.GenHandler G)
    w g w1 fuel :
  Shared.has_id w →
  Shared.call handler w = (Return g, w1) →
  Shared.consume R handler fuel Created w
  = Shared.consume R handler fuel (AtOutput g) w1.
Proof.
  intros Hid Hcall. destruct fuel as [|fuel]; [done|].
  cbn [Shared.consume].
  by rewrite (shared_generator_created R handler w g w1).
Qed.

(** X19.  For a job that carries an [id] at every logger call of the run
    and a generator that yields any number of items and returns, the
    consumer receives one [{output: item}] partial per item, in the order
    of production, nothing else, and the iteration ends normally; an empty
    generator gives no partial. *)
Theorem run_job_generator_streams_all {G : Type} (R : Runtime)
    (handler : Shared.GenHandler G) (g : G) (items : list pyval)
    (w w1 w' : Shared.world) :
  Shared.has_id w →
  Shared.call handler w = (Return g, w1) →
  Shared.produces handler g w1 items Shared.Returns w' →
  ∀ fuel, (length items + 2 ≤ fuel)%nat →
    Shared.consume R handler fuel Created w
    = (map (λ v, {[ "output" := v ]}) items, Some None).
Proof.
  intros Hid Hcall Hprod fuel Hfuel.
  rewrite (shared_consume_created R handler w g w1) by done.
  by rewrite (shared_consume_produces R handler g w1 items Shared.Returns w').
Qed.

Lemma run_job_generator_streams_all_witness :
  Shared.consume sample_runtime
    (scripted [PInt 1; PInt 2; PInt 3] (λ w, (GStop, w)))
    8 Created (Shared.plain_world sample_job ∅)
  = ([ {[ "output" := PInt 1 ]}; {[ "output" := PInt 2 ]};
       {[ "output" := PInt 3 ]} ], Some None).
Proof.
  apply (run_job_generator_streams_all sample_runtime
           (scripted [PInt 1; PInt 2; PInt 3] (λ w, (GStop, w)))
           [PInt 1; PInt 2; PInt 3] [PInt 1; PInt 2; PInt 3]
           (Shared.plain_world sample_job ∅) (Shared.plain_world sample_job ∅)
           (Shared.plain_world sample_job ∅)).
  - by eexists.
  - reflexivity.
  - repeat (eapply Shared.produces_item; [reflexivity | by eexists |]).
    apply Shared.produces_return; [reflexivity | by eexists].
  - cbn. lia.
Defined.

(** X20.  For a job that carries an [id] at every logger call of the run
    and a generator that raises after any number of items: the partials of
    the items come first, in order; when what is raised is an [Exception]
    exactly one [{error: ..}] partial follows them and the iteration ends
    normally; otherwise nothing follows them and the exception reaches the
    consumer. *)
Theorem run_job_generator_streams_until_fault {G : Type} (R : Runtime)
    (handler : Shared.GenHandler G) (g : G) (items : list pyval) (e : exn)
    (w w1 w' : Shared.world) :
  Shared.has_id w →
  Shared.call handler w = (Return g, w1) →
  Shared.produces handler g w1 items (Shared.Raises e) w' →
  ∀ fuel, (length items + 2 ≤ fuel)%nat →
    Shared.consume R handler fuel Created w
    = if is_Exception e
      then (map (λ v, {[ "output" := v ]}) items
              ++ [ {[ "error" :=
                        PStr ("handler: " +:+ exn_message e +:+ " "
                              +:+ String "010"%char "traceback: "
                              +:+ format_exc R e) ]} ],
            Some None)
      else (map (λ v, {[ "output" := v ]}) items, Some (Some e)).
Proof.
  intros Hid Hcall Hprod fuel Hfuel.
  rewrite (shared_consume_created R handler w g w1) by done.
  by rewrite (shared_consume_produces R handler g w1 items (Shared.Raises e) w').
Qed.

Lemma run_job_generator_streams_until_fault_witness :
  Shared.consume sample_runtime
    (scripted [PInt 1; PInt 2; PInt 3] (λ w, (GRaise KeyboardInterrupt, w)))
    8 Created (Shared.plain_world sample_job ∅)
  = ([ {[ "output" := PInt 1 ]}; {[ "output" := PInt 2 ]};
       {[ "output" := PInt 3 ]} ], Some (Some KeyboardInterrupt)).
Proof.
  apply (run_job_generator_streams_until_fault sample_runtime
           (scripted [PInt 1; PInt 2; PInt 3]
              (λ w, (GRaise KeyboardInterrupt, w)))
           [PInt 1; PInt 2; PInt 3] [PInt 1; PInt 2; PInt 3] KeyboardInterrupt
           (Shared.plain_world sample_job ∅) (Shared.plain_world sample_job ∅)
           (Shared.plain_world sample_job ∅)).
  - by eexists.
  - reflexivity.
  - repeat (eapply Shared.produces_item; [reflexivity | by eexists |]).
    apply Shared.produces_raise; [reflexivity | by eexists].
  - cbn. lia.
Defined.

(** X21.  When the call of the handler itself raises and the job carries
    its [id] before and after the call: an [Exception] gives the error
    partial as the only item; anything else leaves the generator at its
    first step with no item. *)
Theorem run_job_generator_call_raises {G : Type} (R : Runtime)
    (handler : Shared.GenHandler G) (e : exn) (w w1 : Shared.world) :
  Shared.has_id w →
  Shared.call handler w = (Raise e, w1) →
  Shared.has_id w1 →
  ∀ fuel, (2 ≤ fuel)%nat →
    Shared.consume R handler fuel Created w
    = if is_Exception e
      then ([ {[ "error" :=
                   PStr ("handler: " +:+ exn_message e +:+ " "
                         +:+ String "010"%char "traceback: "
                         +:+ format_exc R e) ]} ], Some None)
      else ([], Some (Some e)).
Proof.
  intros Hid Hcall Hid1 fuel Hfuel.
  do 2 (destruct fuel as [|fuel]; [lia|]).
  cbn [Shared.consume Shared.run_job_generator].
  rewrite shared_logged_ok, Hcall by done.
  unfold Shared.rjg_except, Shared.rjg_finally. destruct (is_Exception e).
  - rewrite shared_logged_ok by done. cbn [Shared.consume].
    by rewrite shared_generator_after_error.
  - by rewrite shared_logged_ok.
Qed.

Lemma run_job_generator_call_raises_witness :
  ∃ partial,
    Shared.consume sample_runtime
      (Shared.mk_gen_handler nat false (Shared.raise (ValueError "boom"))
         (λ _ w, (GStop, w)))
      2 Created (Shared.plain_world sample_job ∅)
    = ([partial], Some None).
Proof.
  eexists.
  apply (run_job_generator_call_raises sample_runtime
           (Shared.mk_gen_handler nat false (Shared.raise (ValueError "boom"))
              (λ _ w, (GStop, w)))
           (ValueError "boom")
           (Shared.plain_world sample_job ∅) (Shared.plain_world sample_job ∅)).
  - by eexists.
  - reflexivity.
  - by eexists.
  - lia.
Defined.

(* ===================================================================== *)
(** * The poll URL, in full                                               *)
(* ===================================================================== *)



